(** * Execution ledger and orchestration loop of the backtester

    A shallow embedding of [Simulator] (simulator.hpp / simulator.cpp) and of
    [Backtester::run] (backtester.hpp / backtester.cpp).  A C++ [double] is a
    binary64 primitive float, so every arithmetic expression and comparison
    below is the one the program evaluates, in the same order and with the
    same rounding. *)

From Stdlib Require Import Floats.PrimFloat.
From Stdlib Require Floats.SpecFloat Floats.FloatOps Floats.FloatAxioms.
From Stdlib Require Numbers.Cyclic.Int63.Uint63.
From Stdlib Require Import Bool Arith ZArith Lia Ascii String List.
From Stdlib Require DecimalString OrderedTypeEx Sorted.
Import ListNotations.

Set Warnings "-inexact-float".
Local Open Scope float_scope.

(** ** Market data unit: order.hpp, bar.hpp, simulator.hpp *)

Inductive Side : Set := Long | Short.

Inductive OrderType : Set := Market | Limit.

Record Order : Set := mkOrder {
  side : Side;
  quantity : float;
  type : OrderType;
  limit_price : float
}.

Record Bar : Set := mkBar {
  timestamp : string;
  open : float;
  high : float;
  low : float;
  close : float;
  volume : float
}.

Record Trade : Set := mkTrade {
  entry_time : string;
  exit_time : string;
  trade_side : Side;
  trade_quantity : float;
  entry_price : float;
  exit_price : float;
  pnl : float;
  pnl_pct : float
}.

Definition Side_eqb (a b : Side) : bool :=
  match a, b with
  | Long, Long | Short, Short => true
  | _, _ => false
  end.

(** ** Execution ledger: class Simulator *)

Record Simulator : Set := mkSimulator {
  initial_cash_ : float;
  commission_ : float;
  slippage_ : float;
  cash_ : float;
  position_ : float;
  avg_entry_ : float;
  equity_ : float;
  last_close_ : float;
  pending_order_ : Order;
  has_pending_ : bool;
  trades_ : list Trade;
  equity_curve_ : list float;
  last_bar_time_ : string
}.

(** The read accessors of the class. *)
Definition position (s : Simulator) : float := position_ s.
Definition cash (s : Simulator) : float := cash_ s.
Definition equity (s : Simulator) : float := equity_ s.
Definition lastClose (s : Simulator) : float := last_close_ s.
Definition avgEntryPrice (s : Simulator) : float := avg_entry_ s.
Definition trades (s : Simulator) : list Trade := trades_ s.
Definition equityCurve (s : Simulator) : list float := equity_curve_ s.

Definition POSITION_ZERO_EPS : float := 1e-9.

(** [std::min(a, b)] is [(b < a) ? b : a]. *)
Definition fmin (a b : float) : float := if b <? a then b else a.

(** The constructor.  simulator.hpp declares three parameters and every
    caller passes three; the definition in simulator.cpp initialises
    [initial_cash_], [commission_], [cash_], [position_], [avg_entry_],
    [equity_] and [last_close_] and leaves [slippage_] alone.  The field is
    carried here with the value the caller handed in; no member function
    reads it. *)
Definition Simulator_new (initial_cash commission_per_trade slippage_fraction : float)
  : Simulator :=
  {| initial_cash_ := initial_cash;
     commission_ := commission_per_trade;
     slippage_ := slippage_fraction;
     cash_ := initial_cash;
     position_ := 0;
     avg_entry_ := 0;
     equity_ := initial_cash;
     last_close_ := 0;
     pending_order_ := mkOrder Long 0 Market 0;
     has_pending_ := false;
     trades_ := [];
     equity_curve_ := [];
     last_bar_time_ := EmptyString |}.

(** Field updates, one per member the code assigns. *)
Definition set_cash (v : float) (s : Simulator) : Simulator :=
  mkSimulator (initial_cash_ s) (commission_ s) (slippage_ s) v (position_ s)
    (avg_entry_ s) (equity_ s) (last_close_ s) (pending_order_ s)
    (has_pending_ s) (trades_ s) (equity_curve_ s) (last_bar_time_ s).

Definition set_position (v : float) (s : Simulator) : Simulator :=
  mkSimulator (initial_cash_ s) (commission_ s) (slippage_ s) (cash_ s) v
    (avg_entry_ s) (equity_ s) (last_close_ s) (pending_order_ s)
    (has_pending_ s) (trades_ s) (equity_curve_ s) (last_bar_time_ s).

Definition set_avg_entry (v : float) (s : Simulator) : Simulator :=
  mkSimulator (initial_cash_ s) (commission_ s) (slippage_ s) (cash_ s)
    (position_ s) v (equity_ s) (last_close_ s) (pending_order_ s)
    (has_pending_ s) (trades_ s) (equity_curve_ s) (last_bar_time_ s).

Definition set_equity (v : float) (s : Simulator) : Simulator :=
  mkSimulator (initial_cash_ s) (commission_ s) (slippage_ s) (cash_ s)
    (position_ s) (avg_entry_ s) v (last_close_ s) (pending_order_ s)
    (has_pending_ s) (trades_ s) (equity_curve_ s) (last_bar_time_ s).

Definition set_last_close (v : float) (s : Simulator) : Simulator :=
  mkSimulator (initial_cash_ s) (commission_ s) (slippage_ s) (cash_ s)
    (position_ s) (avg_entry_ s) (equity_ s) v (pending_order_ s)
    (has_pending_ s) (trades_ s) (equity_curve_ s) (last_bar_time_ s).

Definition set_pending_order (o : Order) (s : Simulator) : Simulator :=
  mkSimulator (initial_cash_ s) (commission_ s) (slippage_ s) (cash_ s)
    (position_ s) (avg_entry_ s) (equity_ s) (last_close_ s) o
    (has_pending_ s) (trades_ s) (equity_curve_ s) (last_bar_time_ s).

Definition set_has_pending (b : bool) (s : Simulator) : Simulator :=
  mkSimulator (initial_cash_ s) (commission_ s) (slippage_ s) (cash_ s)
    (position_ s) (avg_entry_ s) (equity_ s) (last_close_ s) (pending_order_ s)
    b (trades_ s) (equity_curve_ s) (last_bar_time_ s).

Definition push_trade (t : Trade) (s : Simulator) : Simulator :=
  mkSimulator (initial_cash_ s) (commission_ s) (slippage_ s) (cash_ s)
    (position_ s) (avg_entry_ s) (equity_ s) (last_close_ s) (pending_order_ s)
    (has_pending_ s) (trades_ s ++ [t]) (equity_curve_ s) (last_bar_time_ s).

Definition push_equity (v : float) (s : Simulator) : Simulator :=
  mkSimulator (initial_cash_ s) (commission_ s) (slippage_ s) (cash_ s)
    (position_ s) (avg_entry_ s) (equity_ s) (last_close_ s) (pending_order_ s)
    (has_pending_ s) (trades_ s) (equity_curve_ s ++ [v]) (last_bar_time_ s).

Definition set_last_bar_time (t : string) (s : Simulator) : Simulator :=
  mkSimulator (initial_cash_ s) (commission_ s) (slippage_ s) (cash_ s)
    (position_ s) (avg_entry_ s) (equity_ s) (last_close_ s) (pending_order_ s)
    (has_pending_ s) (trades_ s) (equity_curve_ s) t.

(** [Simulator::placeOrder]. *)
Definition placeOrder (sd : Side) (q : float) (s : Simulator) : Simulator :=
  if q <=? 0 then s
  else
    set_has_pending true
      (set_pending_order
         (mkOrder sd q Market (limit_price (pending_order_ s))) s).

(** The two lines every exit of [processOrders] ends with. *)
Definition finish_fill (bar : Bar) (s : Simulator) : Simulator :=
  set_last_bar_time (timestamp bar) (set_has_pending false s).

(** The block under "Open or add to position", followed by the exit lines. *)
Definition open_or_add (bar : Bar) (fill_price : float) (sd : Side) (qty : float)
    (s : Simulator) : Simulator :=
  let s :=
    if 0 <? qty then
      let cost := fill_price * qty in
      let cost := match sd with Short => - cost | Long => cost end in
      let s := set_cash (cash_ s - (cost - commission_ s)) s in
      if position_ s =? 0 then
        let s := set_avg_entry fill_price s in
        set_position (match sd with Long => qty | Short => - qty end) s
      else
        let total_qty := abs (position_ s) + qty in
        let s :=
          set_avg_entry
            ((avg_entry_ s * abs (position_ s) + fill_price * qty) / total_qty) s in
        set_position
          (position_ s + match sd with Long => qty | Short => - qty end) s
    else s in
  finish_fill bar s.

(** The position update of the close/reduce block, with its snap to zero. *)
Definition snap_zero (p : float) : float :=
  if abs p <? POSITION_ZERO_EPS then 0 else p.

(** [Simulator::processOrders]. *)
Definition processOrders (bar : Bar) (s : Simulator) : Simulator :=
  if negb (has_pending_ s) then s
  else
    let fill_price := open bar in
    let qty := quantity (pending_order_ s) in
    let sd := side (pending_order_ s) in
    if (Side_eqb sd Long && (position_ s <? 0))
       || (Side_eqb sd Short && (0 <? position_ s))
    then
      let close_qty := fmin qty (abs (position_ s)) in
      let leg_pnl :=
        match sd with
        | Long => (avg_entry_ s - fill_price) * close_qty
        | Short => (fill_price - avg_entry_ s) * close_qty
        end in
      let s := set_cash (cash_ s + (leg_pnl - commission_ s)) s in
      let s := set_equity (cash_ s + position_ s * fill_price) s in
      let t_pnl := leg_pnl - commission_ s in
      let t :=
        {| entry_time := last_bar_time_ s;
           exit_time := timestamp bar;
           trade_side := if 0 <? position_ s then Long else Short;
           trade_quantity := close_qty;
           entry_price := avg_entry_ s;
           exit_price := fill_price;
           pnl := t_pnl;
           pnl_pct :=
             if negb (avg_entry_ s =? 0)
             then (t_pnl / (avg_entry_ s * close_qty)) * 100
             else 0 |} in
      let s := push_trade t s in
      let s :=
        if 0 <? position_ s
        then set_position (snap_zero (position_ s - close_qty)) s
        else set_position (snap_zero (position_ s + close_qty)) s in
      let qty := qty - close_qty in
      if qty <=? 0 then finish_fill bar s
      else
        let s :=
          if abs (position_ s) <? POSITION_ZERO_EPS
          then set_avg_entry 0 s else s in
        open_or_add bar fill_price sd qty s
    else open_or_add bar fill_price sd qty s.

(** [Simulator::updateEquity]. *)
Definition updateEquity (bar : Bar) (s : Simulator) : Simulator :=
  let s := set_last_close (close bar) s in
  let s := set_equity (cash_ s + position_ s * close bar) s in
  let s := push_equity (equity_ s) s in
  set_last_bar_time (timestamp bar) s.

(** ** Strategy interface and strategy bridge: strategy.hpp, context.hpp *)

(** What a strategy can read through [IContext]: the context holds the
    simulator and the bar vector by reference and its own bar index. *)
Record BacktestContext : Set := mkContext {
  ctx_sim_ : Simulator;
  ctx_bars_ : list Bar;
  ctx_bar_index_ : nat
}.

Definition ctx_position (c : BacktestContext) : float := position (ctx_sim_ c).
Definition ctx_equity (c : BacktestContext) : float := equity (ctx_sim_ c).
Definition ctx_cash (c : BacktestContext) : float := cash (ctx_sim_ c).
Definition ctx_lastClose (c : BacktestContext) : float := lastClose (ctx_sim_ c).
Definition barIndex (c : BacktestContext) : nat := ctx_bar_index_ c.

(** The only writing entry point of [IContext] is [placeOrder], and it changes
    nothing a strategy can read back.  A hook is therefore a function of the
    strategy's own state and of the context it is handed, to its next state
    and the [placeOrder] calls it makes, in order. *)
Definition PlaceCall : Set := (Side * float)%type.

Class IStrategy (S : Type) : Type := {
  onStart : BacktestContext -> S -> S * list PlaceCall;
  onBar : Bar -> BacktestContext -> S -> S * list PlaceCall;
  onEnd : BacktestContext -> S -> S * list PlaceCall
}.

(** [BacktestContext::placeOrder] delegates to the simulator, call by call. *)
Definition place_calls (os : list PlaceCall) (s : Simulator) : Simulator :=
  fold_left (fun acc o => placeOrder (fst o) (snd o) acc) os s.

(** ** Orchestrator: class Backtester *)

(** The calls [run] makes on its collaborators, in the order it makes them.
    The log is not a member of the class: it records the control flow so that
    statements about which call happened for which bar can be written. *)
Inductive Call : Set :=
| CallOnStart
| CallProcessOrders (i : nat)
| CallOnBar (i : nat)
| CallUpdateEquity (i : nat)
| CallOnEnd.

Record Backtester (S : Type) : Type := mkBacktester {
  strategy_ : S;
  data_path_ : string;
  data_ : list Bar;
  bt_initial_cash_ : float;
  databento_dir_ : string;
  symbol_filter_ : string;
  bar_resolution_ : string;
  sim_ : Simulator;
  bar_index_ : nat;
  stopped_early_ : bool;
  stop_reason_ : string;
  calls_ : list Call
}.

Arguments mkBacktester {S}.
Arguments strategy_ {S}.
Arguments data_path_ {S}.
Arguments data_ {S}.
Arguments bt_initial_cash_ {S}.
Arguments databento_dir_ {S}.
Arguments symbol_filter_ {S}.
Arguments bar_resolution_ {S}.
Arguments sim_ {S}.
Arguments bar_index_ {S}.
Arguments stopped_early_ {S}.
Arguments stop_reason_ {S}.
Arguments calls_ {S}.

Definition stoppedEarly {S} (bt : Backtester S) : bool := stopped_early_ bt.
Definition stopReason {S} (bt : Backtester S) : string := stop_reason_ bt.
Definition simulator {S} (bt : Backtester S) : Simulator := sim_ bt.

(** The result of one pass through the body of the [for] loop: either the
    loop goes on, with the local [peak_equity], or a [break] was taken. *)
Inductive Step (S : Type) : Type :=
| Next (peak_equity : float) (bt : Backtester S)
| Stop (bt : Backtester S).

Arguments Next {S}.
Arguments Stop {S}.

Definition after_loop {S} (r : Step S) : Backtester S :=
  match r with Next _ bt => bt | Stop bt => bt end.

Definition took_break {S} (r : Step S) : bool :=
  match r with Next _ _ => false | Stop _ => true end.

(** [toLower] of data_source.cpp, on ASCII letters. *)
Definition lower_ascii (c : Ascii.ascii) : Ascii.ascii :=
  let n := Ascii.nat_of_ascii c in
  if (65 <=? n)%nat && (n <=? 90)%nat then Ascii.ascii_of_nat (n + 32) else c.

Fixpoint toLower (s : string) : string :=
  match s with
  | EmptyString => EmptyString
  | String c rest => String (lower_ascii c) (toLower rest)
  end.

Definition is_empty (l : list Bar) : bool :=
  match l with [] => true | _ :: _ => false end.

Definition is_some {A : Type} (o : option A) : bool :=
  match o with Some _ => true | None => false end.

Definition Call_eqb (a b : Call) : bool :=
  match a, b with
  | CallOnStart, CallOnStart | CallOnEnd, CallOnEnd => true
  | CallProcessOrders i, CallProcessOrders j
  | CallOnBar i, CallOnBar j
  | CallUpdateEquity i, CallUpdateEquity j => Nat.eqb i j
  | _, _ => false
  end.

(** How many times a call occurs in a log. *)
Definition count_call (c : Call) (l : list Call) : nat :=
  List.length (filter (Call_eqb c) l).

Definition is_processOrders (c : Call) : bool :=
  match c with CallProcessOrders _ => true | _ => false end.

Definition is_updateEquity (c : Call) : bool :=
  match c with CallUpdateEquity _ => true | _ => false end.

(** The bar a call is made for, if it is made for one. *)
Definition bar_of_call (c : Call) : option nat :=
  match c with
  | CallProcessOrders i | CallOnBar i | CallUpdateEquity i => Some i
  | CallOnStart | CallOnEnd => None
  end.

(** [placeOrder] takes a call when its quantity is not [<= 0]; the last such
    call of a hook is the order left pending. *)
Definition accepted (o : PlaceCall) : bool := negb (snd o <=? 0).

Fixpoint last_accepted (os : list PlaceCall) : option PlaceCall :=
  match os with
  | [] => None
  | o :: rest =>
      match last_accepted rest with
      | Some o' => Some o'
      | None => if accepted o then Some o else None
      end
  end.

Section Orchestrator.

Context {S : Type} {strat : IStrategy S}.

(** The data collaborator.  [load] and [loadFromDatabentoDir] read the file
    system.  Both clear the bar vector first and return [false] only before
    the first bar is pushed, so a failure leaves no bars: [None] is a
    [false] return, [Some bs] a [true] return with [bs] loaded.  [regroup]
    is the grouping of [aggregateBars] into periods of the given number of
    minutes, through its timestamp parser and ordered map; the loop only
    ever sees its result. *)
Variable load : string -> option (list Bar).
Variable loadFromDatabentoDir : string -> string -> option (list Bar).
Variable regroup : nat -> list Bar -> list Bar.

(** [DataSource::aggregateBars]. *)
Definition aggregateBars (resolution : string) (bs : list Bar) : list Bar :=
  let r := toLower resolution in
  if String.eqb r "1m" || String.eqb r EmptyString then bs
  else if String.eqb r "15m" then regroup 15 bs
  else if String.eqb r "1h" || String.eqb r "1hr" then regroup 60 bs
  else bs.

(** [Backtester::Backtester]. *)
Definition Backtester_new (strategy : S) (data_path : string)
    (initial_cash commission : float)
    (databento_dir symbol_filter bar_resolution : string) (slippage : float)
  : Backtester S :=
  {| strategy_ := strategy;
     data_path_ := data_path;
     data_ := [];
     bt_initial_cash_ := initial_cash;
     databento_dir_ := databento_dir;
     symbol_filter_ := symbol_filter;
     bar_resolution_ :=
       if String.eqb bar_resolution EmptyString then "1m"%string
       else bar_resolution;
     sim_ := Simulator_new initial_cash commission slippage;
     bar_index_ := 0;
     stopped_early_ := false;
     stop_reason_ := EmptyString;
     calls_ := [] |}.

Definition set_data (d : list Bar) (bt : Backtester S) : Backtester S :=
  mkBacktester (strategy_ bt) (data_path_ bt) d (bt_initial_cash_ bt)
    (databento_dir_ bt) (symbol_filter_ bt) (bar_resolution_ bt) (sim_ bt)
    (bar_index_ bt) (stopped_early_ bt) (stop_reason_ bt) (calls_ bt).

Definition set_strategy (st : S) (bt : Backtester S) : Backtester S :=
  mkBacktester st (data_path_ bt) (data_ bt) (bt_initial_cash_ bt)
    (databento_dir_ bt) (symbol_filter_ bt) (bar_resolution_ bt) (sim_ bt)
    (bar_index_ bt) (stopped_early_ bt) (stop_reason_ bt) (calls_ bt).

Definition set_sim (s : Simulator) (bt : Backtester S) : Backtester S :=
  mkBacktester (strategy_ bt) (data_path_ bt) (data_ bt) (bt_initial_cash_ bt)
    (databento_dir_ bt) (symbol_filter_ bt) (bar_resolution_ bt) s
    (bar_index_ bt) (stopped_early_ bt) (stop_reason_ bt) (calls_ bt).

Definition setBarIndex (i : nat) (bt : Backtester S) : Backtester S :=
  mkBacktester (strategy_ bt) (data_path_ bt) (data_ bt) (bt_initial_cash_ bt)
    (databento_dir_ bt) (symbol_filter_ bt) (bar_resolution_ bt) (sim_ bt)
    i (stopped_early_ bt) (stop_reason_ bt) (calls_ bt).

Definition set_stopped (reason : string) (bt : Backtester S) : Backtester S :=
  mkBacktester (strategy_ bt) (data_path_ bt) (data_ bt) (bt_initial_cash_ bt)
    (databento_dir_ bt) (symbol_filter_ bt) (bar_resolution_ bt) (sim_ bt)
    (bar_index_ bt) true reason (calls_ bt).

Definition log_call (c : Call) (bt : Backtester S) : Backtester S :=
  mkBacktester (strategy_ bt) (data_path_ bt) (data_ bt) (bt_initial_cash_ bt)
    (databento_dir_ bt) (symbol_filter_ bt) (bar_resolution_ bt) (sim_ bt)
    (bar_index_ bt) (stopped_early_ bt) (stop_reason_ bt) (calls_ bt ++ [c]).

(** The context as the strategy sees it at this point of the run. *)
Definition ctx_of (bt : Backtester S) : BacktestContext :=
  mkContext (sim_ bt) (data_ bt) (bar_index_ bt).

(** Invoking a hook: the strategy moves to its next state and its
    [placeOrder] calls reach the simulator. *)
Definition invoke (hook : BacktestContext -> S -> S * list PlaceCall)
    (c : Call) (bt : Backtester S) : Backtester S :=
  let r := hook (ctx_of bt) (strategy_ bt) in
  log_call c (set_sim (place_calls (snd r) (sim_ bt)) (set_strategy (fst r) bt)).

Definition call_processOrders (i : nat) (bar : Bar) (bt : Backtester S)
  : Backtester S :=
  log_call (CallProcessOrders i) (set_sim (processOrders bar (sim_ bt)) bt).

Definition call_updateEquity (i : nat) (bar : Bar) (bt : Backtester S)
  : Backtester S :=
  log_call (CallUpdateEquity i) (set_sim (updateEquity bar (sim_ bt)) bt).

(** The open-based equity the loop computes right after the fill. *)
Definition eq_after_fill (bar : Bar) (s : Simulator) : float :=
  cash s + position s * open bar.

(** The body of the [for] loop of [Backtester::run], for bar [i]. *)
Definition loop_body (i : nat) (bar : Bar) (peak_equity : float)
    (bt : Backtester S) : Step S :=
  let bt := setBarIndex i bt in
  let bt := call_processOrders i bar bt in
  if eq_after_fill bar (sim_ bt) <=? 0 then
    let bt := set_stopped "no more equity" bt in
    let bt := call_updateEquity i bar bt in
    Stop bt
  else
    let bt := invoke (onBar bar) (CallOnBar i) bt in
    let bt := call_updateEquity i bar bt in
    let eq := equity (sim_ bt) in
    let peak_equity := if peak_equity <? eq then eq else peak_equity in
    let drawdown_pct :=
      if 0 <? peak_equity
      then (peak_equity - eq) / peak_equity * 100
      else 100 in
    if eq <=? 0 then Stop (set_stopped "no more equity" bt)
    else if 100 <=? drawdown_pct then Stop (set_stopped "max drawdown 100%" bt)
    else Next peak_equity bt.

(** The state in which the loop body leaves the run when the account is not
    ruined at the open: the fill, the strategy, the mark to market. *)
Definition bar_done (i : nat) (bar : Bar) (bt : Backtester S) : Backtester S :=
  call_updateEquity i bar
    (invoke (onBar bar) (CallOnBar i)
       (call_processOrders i bar (setBarIndex i bt))).

(** The [for] loop, over the bars from index [i] on. *)
Fixpoint loop (i : nat) (bs : list Bar) (peak_equity : float)
    (bt : Backtester S) : Step S :=
  match bs with
  | [] => Next peak_equity bt
  | bar :: rest =>
      match loop_body i bar peak_equity bt with
      | Next peak_equity' bt' => loop (Datatypes.S i) rest peak_equity' bt'
      | Stop bt' => Stop bt'
      end
  end.

(** What the load step of [run] returns. *)
Definition load_data (bt : Backtester S) : option (list Bar) :=
  if negb (String.eqb (databento_dir_ bt) EmptyString)
  then loadFromDatabentoDir (databento_dir_ bt) (symbol_filter_ bt)
  else load (data_path_ bt).

(** The state in which the loop is entered: the bars aggregated and
    [onStart] called. *)
Definition started (bt : Backtester S) : Backtester S :=
  let bt := set_data (aggregateBars (bar_resolution_ bt) (data_ bt)) bt in
  invoke onStart CallOnStart bt.

(** The loop of [run], once the data is in. *)
Definition run_loaded (bt : Backtester S) : Step S :=
  let bt := started bt in
  loop 0 (data_ bt) (bt_initial_cash_ bt) bt.

(** [Backtester::run]. *)
Definition run (bt : Backtester S) : bool * Backtester S :=
  let r := load_data bt in
  let ok := is_some r in
  let bt := set_data (match r with Some bs => bs | None => [] end) bt in
  if negb ok || is_empty (data_ bt) then (false, bt)
  else (true, invoke onEnd CallOnEnd (after_loop (run_loaded bt))).

End Orchestrator.

(** ** Strategies and data for the examples *)

(** A strategy that plays a script: on each bar it places the orders at the
    head of its script and moves on to the rest. *)
#[export] Instance Scripted : IStrategy (list (list PlaceCall)) := {|
  onStart := fun _ st => (st, []);
  onBar := fun _ _ st =>
    match st with
    | [] => ([], [])
    | os :: rest => (rest, os)
    end;
  onEnd := fun _ st => (st, [])
|}.

(** A file system in which every path holds the given bars. *)
Definition load_const (bs : list Bar) : string -> option (list Bar) :=
  fun _ => Some bs.

Definition load_dir_const (bs : list Bar) : string -> string -> option (list Bar) :=
  fun _ _ => Some bs.

(** A file system in which nothing can be opened. *)
Definition load_fails : string -> option (list Bar) := fun _ => None.

Definition regroup_id : nat -> list Bar -> list Bar := fun _ bs => bs.

(** A scripted backtester on one-minute bars, 10000 in cash, no commission. *)
Definition scripted_bt (script : list (list PlaceCall)) : Backtester (list (list PlaceCall)) :=
  Backtester_new script "data.csv" 10000 0 EmptyString EmptyString "1m" 0.

Definition flat_bar (ts : string) (p : float) : Bar := mkBar ts p p p p 0.

(** Short 10 at 100, then the price goes to 1100: ruin at the open of the
    third bar, with one more bar behind it that is never reached. *)
Definition ruin_bars : list Bar :=
  [flat_bar "d0" 100; flat_bar "d1" 100; flat_bar "d2" 1100; flat_bar "d3" 1100].

Definition ruin_script : list (list PlaceCall) := [[(Short, 10)]].


Definition quiet_script : list (list PlaceCall) := [[(Long, 10)]].


(** ** The simulator scenarios of tests/test_runner.cpp *)

(** [ASSERT_NEAR(a, b, tol)] passes unless [std::abs(a - b) > tol]. *)
Definition ASSERT_NEAR (a b tol : float) : bool := negb (tol <? abs (a - b)).

(** [run_simulator_long_trade], up to its last simulator call. *)
Definition long_trade_bar1 : Bar := mkBar "2024-01-01T10:00" 100 101 99 100.5 0.
Definition long_trade_bar2 : Bar := mkBar "2024-01-01T10:15" 102 103 101 102 0.

Definition run_simulator_long_trade : Simulator :=
  let sim := Simulator_new 10000 0 0 in
  let sim := placeOrder Long 10 sim in
  let sim := processOrders long_trade_bar1 sim in
  let sim := updateEquity long_trade_bar1 sim in
  let sim := placeOrder Short 10 sim in
  processOrders long_trade_bar2 sim.

(** [run_simulator_commission]: the bars carry no timestamp. *)
Definition commission_bar1 : Bar := mkBar EmptyString 100 0 0 100 0.
Definition commission_bar2 : Bar := mkBar EmptyString 105 0 0 105 0.

Definition run_simulator_commission : Simulator :=
  let sim := Simulator_new 10000 1 0 in
  let sim := placeOrder Long 5 sim in
  let sim := processOrders commission_bar1 sim in
  let sim := placeOrder Short 5 sim in
  processOrders commission_bar2 sim.

(** [run_simulator_slippage]. *)
Definition slippage_bar1 : Bar := mkBar "2024-01-01T10:00" 100 0 0 100 0.
Definition slippage_bar2 : Bar := mkBar "2024-01-01T10:15" 102 0 0 102 0.

Definition run_simulator_slippage : Simulator :=
  let slip := 0.01 in
  let sim := Simulator_new 10000 0 slip in
  let sim := placeOrder Long 10 sim in
  let sim := processOrders slippage_bar1 sim in
  let sim := placeOrder Short 10 sim in
  processOrders slippage_bar2 sim.

(** A short of 10 opened at 100 with 10000 in cash, then an order to cover
    it: the state a bar opening at 1100 finds. *)
Definition short_then_cover : Simulator :=
  let sim := Simulator_new 10000 0 0 in
  let sim := placeOrder Short 10 sim in
  let sim := processOrders (mkBar "d1" 100 100 100 100 0) sim in
  let sim := updateEquity (mkBar "d1" 100 100 100 100 0) sim in
  placeOrder Long 10 sim.

(** ** Report: the two string writers of report.cpp *)

Definition dquote : Ascii.ascii := Ascii.ascii_of_nat 34.
Definition backslash : Ascii.ascii := Ascii.ascii_of_nat 92.
Definition newline : Ascii.ascii := Ascii.ascii_of_nat 10.
Definition carriage_return : Ascii.ascii := Ascii.ascii_of_nat 13.

(** The loop of [writeCsvQuoted]: what it sends to the stream for the
    characters of [s], a quote as two quotes and any other character as it
    is. *)
Fixpoint csv_escape (s : string) : string :=
  match s with
  | EmptyString => EmptyString
  | String c rest =>
      if Ascii.eqb c dquote
      then String dquote (String dquote (csv_escape rest))
      else String c (csv_escape rest)
  end.

(** [writeCsvQuoted(out, s)], as the text it appends to [out]. *)
Definition writeCsvQuoted (s : string) : string :=
  String dquote (csv_escape s ++ String dquote EmptyString).

(** The loop of [writeJsonString]. *)
Fixpoint json_escape (s : string) : string :=
  match s with
  | EmptyString => EmptyString
  | String c rest =>
      if Ascii.eqb c dquote
      then String backslash (String dquote (json_escape rest))
      else if Ascii.eqb c backslash
      then String backslash (String backslash (json_escape rest))
      else if Ascii.eqb c newline
      then String backslash (String "n"%char (json_escape rest))
      else if Ascii.eqb c carriage_return
      then String backslash (String "r"%char (json_escape rest))
      else String c (json_escape rest)
  end.

(** [writeJsonString(out, s)], as the text it appends to [out]. *)
Definition writeJsonString (s : string) : string :=
  String dquote (json_escape s ++ String dquote EmptyString).

(** ** Report: [computeMetrics] of report.cpp *)

Record BacktestMetrics : Set := mkMetrics {
  total_return_pct : float;
  max_drawdown_pct : float;
  sharpe_ratio : float;
  num_trades : Z;
  winning_trades : Z;
  win_rate_pct : float;
  avg_trade_pnl : float;
  initial_equity : float;
  final_equity : float;
  open_position : float;
  unrealized_pnl : float
}.

(** [static_cast<int>] of a [size_t]: the value modulo 2^32, read as a signed
    32-bit integer. *)
Definition to_int (z : Z) : Z := ((z + 2 ^ 31) mod 2 ^ 32 - 2 ^ 31)%Z.

(** The conversion of an integer to [double].  It rounds to nearest as the
    hardware does; it is exact below 2^53 and is used here on counts and
    sizes only, which stay below 2^63. *)
Definition double_of_Z (z : Z) : float :=
  if (z <? 0)%Z then - of_uint63 (Uint63.of_Z (- z))
  else of_uint63 (Uint63.of_Z z).

(** One pass of the drawdown loop, on the pair of [peak] and [max_dd]. *)
Definition drawdown_step (st : float * float) (eq : float) : float * float :=
  let peak := fst st in
  let max_dd := snd st in
  let peak := if peak <? eq then eq else peak in
  let dd := if negb (peak =? 0) then (peak - eq) / peak * 100 else 0 in
  let max_dd := if max_dd <? dd then dd else max_dd in
  (peak, max_dd).

(** The loop that fills [returns]: one entry per curve point after the first,
    from the point before it. *)
Fixpoint period_returns (prev : float) (rest : list float) : list float :=
  match rest with
  | [] => []
  | x :: rest' =>
      (if negb (prev =? 0) then (x - prev) / prev else 0)
        :: period_returns x rest'
  end.

Definition TRADING_DAYS_PER_YEAR : float := 252.

(** The Sharpe block, for a curve of at least two points [c0 :: rest]. *)
Definition sharpe_of (c0 : float) (rest : list float) : float :=
  let returns := period_returns c0 rest in
  let mean :=
    fold_left (fun acc r => acc + r) returns 0
    / double_of_Z (Z.of_nat (List.length returns)) in
  let sq_sum :=
    fold_left (fun acc r => acc + (r - mean) * (r - mean)) returns 0 in
  let stddev :=
    if (1 <? List.length returns)%nat
    then sqrt (sq_sum / double_of_Z (Z.of_nat (List.length returns - 1)))
    else 0 in
  if negb (stddev =? 0)
  then (mean / stddev) * sqrt TRADING_DAYS_PER_YEAR
  else 0.

(** The loop over the trades, on the pair of [wins] and [total_pnl]. *)
Definition trade_step (st : Z * float) (t : Trade) : Z * float :=
  (if 0 <? pnl t then (fst st + 1)%Z else fst st, snd st + pnl t).

(** [Report::computeMetrics], for the simulator and the initial cash the
    report was built with. *)
Definition computeMetrics (sim : Simulator) (initial_cash : float)
  : BacktestMetrics :=
  let final := equity sim in
  let total_return :=
    if negb (initial_cash =? 0)
    then ((final - initial_cash) / initial_cash) * 100
    else 0 in
  match equityCurve sim with
  | [] =>
      mkMetrics total_return 0 0 0 0 0 0 initial_cash final 0 0
  | c0 :: rest =>
      let max_dd := snd (fold_left drawdown_step (c0 :: rest) (c0, 0)) in
      let sharpe :=
        match rest with
        | [] => 0
        | _ :: _ => sharpe_of c0 rest
        end in
      let n := to_int (Z.of_nat (List.length (trades sim))) in
      let wt := fold_left trade_step (trades sim) (0%Z, 0) in
      let wins := fst wt in
      let total_pnl := snd wt in
      let win_rate :=
        if (0 <? n)%Z then 100 * double_of_Z wins / double_of_Z n else 0 in
      let avg_pnl := if (0 <? n)%Z then total_pnl / double_of_Z n else 0 in
      let pos := position sim in
      let unrealized :=
        if (1e-9 <=? abs pos) && (0 <? lastClose sim)
        then pos * (lastClose sim - avgEntryPrice sim)
        else 0 in
      mkMetrics total_return max_dd sharpe n wins win_rate avg_pnl
        initial_cash final pos unrealized
  end.

(** ** DataSource: the text helpers of data_source.cpp *)

(** The characters [trim] strips: space, tab, carriage return, line feed. *)
Definition is_trim_char (c : ascii) : bool :=
  Ascii.eqb c " "%char || Ascii.eqb c (Ascii.ascii_of_nat 9)
  || Ascii.eqb c carriage_return || Ascii.eqb c newline.

(** [s.find_first_not_of(" \t\r\n")]; [None] is [npos]. *)
Fixpoint find_first_not_of (s : string) : option nat :=
  match s with
  | EmptyString => None
  | String c rest =>
      if is_trim_char c then option_map Datatypes.S (find_first_not_of rest)
      else Some 0%nat
  end.

(** [s.find_last_not_of(" \t\r\n")]; [None] is [npos]. *)
Fixpoint find_last_not_of (s : string) : option nat :=
  match s with
  | EmptyString => None
  | String c rest =>
      match find_last_not_of rest with
      | Some i => Some (Datatypes.S i)
      | None => if is_trim_char c then None else Some 0%nat
      end
  end.

(** [trim].  When [find_first_not_of] finds a character so does
    [find_last_not_of]; the branch in which it does not is never taken. *)
Definition trim (s : string) : string :=
  match find_first_not_of s with
  | None => EmptyString
  | Some start =>
      match find_last_not_of s with
      | Some end_ => substring start (end_ - start + 1) s
      | None => EmptyString
      end
  end.

(** The [std::getline(iss, part, delim)] loop of [split] on what is left of
    the line, [cur] being the part read so far.  A part ends at a delimiter
    or at the end of the line; after a delimiter that ends the line no
    further part is read. *)
Fixpoint getline_parts (s : string) (delim : ascii) (cur : string) : list string :=
  match s with
  | EmptyString => [cur]
  | String c rest =>
      if Ascii.eqb c delim
      then cur :: match rest with
                  | EmptyString => []
                  | String _ _ => getline_parts rest delim EmptyString
                  end
      else getline_parts rest delim (cur ++ String c EmptyString)
  end.

(** [split]: on an empty line the first [getline] already fails. *)
Definition split (line : string) (delim : ascii) : list string :=
  map trim
    match line with
    | EmptyString => []
    | String _ _ => getline_parts line delim EmptyString
    end.

(** The inner loop of [findColumn] for one name, from index [i] on. *)
Fixpoint find_header (headers : list string) (name : string) (i : nat)
  : option nat :=
  match headers with
  | [] => None
  | h :: rest =>
      if String.eqb (toLower h) name then Some i
      else find_header rest name (Datatypes.S i)
  end.

(** [findColumn]: the names are tried in order; the index is returned as an
    [int], -1 when no name is found. *)
Fixpoint findColumn (headers names : list string) : Z :=
  match names with
  | [] => (-1)%Z
  | name :: rest =>
      match find_header headers name 0 with
      | Some i => to_int (Z.of_nat i)
      | None => findColumn headers rest
      end
  end.

(** Whether every character of [s] is one that [trim] strips. *)
Fixpoint all_trim_chars (s : string) : bool :=
  match s with
  | EmptyString => true
  | String c rest => is_trim_char c && all_trim_chars rest
  end.

(** How many times [c] occurs in [s]. *)
Fixpoint count_char (c : ascii) (s : string) : nat :=
  match s with
  | EmptyString => 0
  | String d rest => (if Ascii.eqb d c then 1 else 0) + count_char c rest
  end.

(** Whether [s] ends with [c]. *)
Fixpoint ends_with (c : ascii) (s : string) : bool :=
  match s with
  | EmptyString => false
  | String d EmptyString => Ascii.eqb d c
  | String _ rest => ends_with c rest
  end.

(** ** DataSource: timestamps, period keys and [aggregateBars] *)

(** [std::stoi] on a string, base 10: leading white space, an optional sign,
    then the digits up to the first other character.  [None] stands for its
    two exceptions, no digit at all or a value outside [int]; every caller
    here catches both alike. *)
Definition is_space (c : ascii) : bool :=
  let n := nat_of_ascii c in
  Nat.eqb n 32 || ((9 <=? n)%nat && (n <=? 13)%nat).

Fixpoint skip_space (s : string) : string :=
  match s with
  | EmptyString => EmptyString
  | String c rest => if is_space c then skip_space rest else s
  end.

Definition digit_of (c : ascii) : option Z :=
  let n := nat_of_ascii c in
  if (48 <=? n)%nat && (n <=? 57)%nat then Some (Z.of_nat (n - 48)) else None.

(** The digits at the front of [s], on top of [acc]; [seen] tells whether a
    digit has been read. *)
Fixpoint read_digits (s : string) (acc : Z) (seen : bool) : option Z :=
  match s with
  | EmptyString => if seen then Some acc else None
  | String c rest =>
      match digit_of c with
      | Some d => read_digits rest (acc * 10 + d)%Z true
      | None => if seen then Some acc else None
      end
  end.

Definition INT_MIN : Z := (- 2 ^ 31)%Z.
Definition INT_MAX : Z := (2 ^ 31 - 1)%Z.

Definition stoi (s : string) : option Z :=
  let s := skip_space s in
  let neg := match s with
             | String c _ => Ascii.eqb c "-"%char
             | EmptyString => false
             end in
  let s := match s with
           | String c rest =>
               if Ascii.eqb c "-"%char || Ascii.eqb c "+"%char then rest else s
           | EmptyString => s
           end in
  match read_digits s 0%Z false with
  | None => None
  | Some v =>
      let v := if neg then (- v)%Z else v in
      if (INT_MIN <=? v)%Z && (v <=? INT_MAX)%Z then Some v else None
  end.

(** [s.find(c, from)]: the index of the first [c] at or after [from]. *)
Fixpoint find_char_from (c : ascii) (from : nat) (s : string) : option nat :=
  match s with
  | EmptyString => None
  | String d rest =>
      match from with
      | O => if Ascii.eqb d c then Some 0%nat
             else option_map Datatypes.S (find_char_from c 0 rest)
      | Datatypes.S from' => option_map Datatypes.S (find_char_from c from' rest)
      end
  end.

Definition find_char (c : ascii) (s : string) : option nat := find_char_from c 0 s.

(** [s.substr(pos)], for [pos] up to the size of [s]. *)
Definition substr_from (pos : nat) (s : string) : string :=
  substring pos (String.length s - pos) s.

(** The first loop of [parseTimestamp]: every underscore becomes a colon. *)
Fixpoint underscores_to_colons (s : string) : string :=
  match s with
  | EmptyString => EmptyString
  | String c rest =>
      String (if Ascii.eqb c "_"%char then ":"%char else c)
        (underscores_to_colons rest)
  end.

(** The time block of [parseTimestamp]: hour and minute, each left at 0 when
    it is not read.  The minute is read between the first colon and a second
    one. *)
Definition parse_time (timePart : string) : Z * Z :=
  match timePart with
  | EmptyString => (0%Z, 0%Z)
  | String _ _ =>
      match find_char ":"%char timePart with
      | None => (0%Z, 0%Z)
      | Some colon1 =>
          match stoi (substring 0 colon1 timePart) with
          | None => (0%Z, 0%Z)
          | Some hour =>
              match find_char_from ":"%char (colon1 + 1) timePart with
              | None => (hour, 0%Z)
              | Some colon2 =>
                  match stoi (substring (colon1 + 1) (colon2 - (colon1 + 1)) timePart) with
                  | None => (hour, 0%Z)
                  | Some minute => (hour, minute)
                  end
              end
          end
      end
  end.

(** The date block: year, month and day from the fixed columns of a date part
    of at least ten characters. *)
Definition parse_date (datePart : string) : option (Z * Z * Z) :=
  if (String.length datePart <? 10)%nat then None
  else
    match stoi (substring 0 4 datePart) with
    | None => None
    | Some year =>
        match stoi (substring 5 2 datePart) with
        | None => None
        | Some month =>
            match stoi (substring 8 2 datePart) with
            | None => None
            | Some day => Some (year, month, day)
            end
        end
    end.

(** The split of a timestamp into its date part and its time part: at the
    first [T] if there is one, else at the first space, else no time part. *)
Definition date_and_time (s : string) : string * string :=
  match find_char "T"%char s with
  | Some tPos => (substring 0 tPos s, substr_from (tPos + 1) s)
  | None =>
      match find_char " "%char s with
      | Some spPos => (substring 0 spPos s, substr_from (spPos + 1) s)
      | None => (s, EmptyString)
      end
  end.

(** [parseTimestamp]: [None] is a [false] return, [Some] the five values it
    leaves in its reference parameters on a [true] return. *)
Definition parseTimestamp (ts : string) : option (Z * Z * Z * Z * Z) :=
  let s := underscores_to_colons ts in
  let dt := date_and_time s in
  match parse_date (fst dt) with
  | None => None
  | Some (year, month, day) =>
      let hm := parse_time (snd dt) in
      Some (year, month, day, fst hm, snd hm)
  end.

(** [printf]'s [%0wd]: the decimal digits, filled with zeros up to the width,
    the sign of a negative number counting for one column. *)
Definition decimal (n : Z) : string :=
  DecimalString.NilZero.string_of_uint (N.to_uint (Z.to_N n)).

Fixpoint zeros (n : nat) : string :=
  match n with
  | O => EmptyString
  | Datatypes.S n' => String "0"%char (zeros n')
  end.

Definition fmt_0d (width : nat) (v : Z) : string :=
  if (v <? 0)%Z then
    let d := decimal (- v) in
    String "-"%char (zeros (width - 1 - String.length d) ++ d)
  else
    let d := decimal v in
    zeros (width - String.length d) ++ d.

(** [periodKey]: the [snprintf] into a buffer of 32 keeps 31 characters. *)
Definition periodKey (year month day hour minute intervalMinutes : Z) : string :=
  let m := (Z.quot minute intervalMinutes * intervalMinutes)%Z in
  let h := hour in
  let m := if (60 <=? intervalMinutes)%Z then 0%Z else m in
  substring 0 31
    (fmt_0d 4 year ++ "-" ++ fmt_0d 2 month ++ "-" ++ fmt_0d 2 day ++ "T"
     ++ fmt_0d 2 h ++ ":" ++ fmt_0d 2 m).

(** The period a bar falls in, when its timestamp parses. *)
Definition bar_key (intervalMinutes : Z) (b : Bar) : option string :=
  match parseTimestamp (timestamp b) with
  | None => None
  | Some (y, mo, d, h, mi) => Some (periodKey y mo d h mi intervalMinutes)
  end.

(** The aggregate a period starts with, and the update for a further bar. *)
Definition first_in_period (key : string) (b : Bar) : Bar :=
  mkBar key (open b) (high b) (low b) (close b) (volume b).

Definition merge_bar (agg b : Bar) : Bar :=
  let hi := if (high agg <? high b)%float then high b else high agg in
  let lo := if (low b <? low agg)%float then low b else low agg in
  mkBar (timestamp agg) (open agg) hi lo (close b) (volume agg + volume b)%float.

(** [keyToBar], a [std::map] from period key to aggregate, as the list of its
    entries in key order: the lookup and insertion of one bar. *)
Fixpoint map_upsert (key : string) (b : Bar) (m : list (string * Bar))
  : list (string * Bar) :=
  match m with
  | [] => [(key, first_in_period key b)]
  | (k, agg) :: rest =>
      if String.eqb key k then (k, merge_bar agg b) :: rest
      else if String.ltb key k then (key, first_in_period key b) :: m
      else (k, agg) :: map_upsert key b rest
  end.

(** The body of the loop over the bars. *)
Definition aggregate_step (intervalMinutes : Z) (m : list (string * Bar)) (b : Bar)
  : list (string * Bar) :=
  match bar_key intervalMinutes b with
  | None => m
  | Some key => map_upsert key b m
  end.

(** The final [std::sort] by timestamp, as an insertion sort. *)
Fixpoint insert_by_timestamp (b : Bar) (l : list Bar) : list Bar :=
  match l with
  | [] => [b]
  | x :: rest =>
      if String.ltb (timestamp b) (timestamp x) then b :: l
      else x :: insert_by_timestamp b rest
  end.

Definition sort_by_timestamp (l : list Bar) : list Bar :=
  fold_right insert_by_timestamp [] l.

(** The grouping of [aggregateBars] for an interval of 15 or 60 minutes. *)
Definition regroup_periods (intervalMinutes : nat) (bs : list Bar) : list Bar :=
  let keyToBar := fold_left (aggregate_step (Z.of_nat intervalMinutes)) bs [] in
  sort_by_timestamp (map snd keyToBar).

(** The four one-minute bars of the aggregation test of the test suite. *)
Definition aggregate_test_bars : list Bar :=
  [mkBar "2024-01-01T09:30" 100 101 99 100.5 100;
   mkBar "2024-01-01T09:31" 100.5 102 100 101 200;
   mkBar "2024-01-01T09:32" 101 103 100.5 102 150;
   mkBar "2024-01-01T09:33" 102 102.5 101 101.5 50].

(** The entries of [keyToBar] are in strictly increasing key order and each
    aggregate carries its key as its timestamp. *)
Inductive map_ok : list (string * Bar) -> Prop :=
| map_ok_nil : map_ok []
| map_ok_cons (k : string) (agg : Bar) (rest : list (string * Bar)) :
    timestamp agg = k ->
    Forall (fun kv => String.ltb k (fst kv) = true) rest ->
    map_ok rest ->
    map_ok ((k, agg) :: rest).

(** ** Sequences of calls on the ledger *)

(** One call of a mutating member function of [Simulator]. *)
Inductive LedgerCall : Set :=
| DoPlaceOrder (sd : Side) (q : float)
| DoProcessOrders (bar : Bar)
| DoUpdateEquity (bar : Bar).

Definition ledger_call (s : Simulator) (c : LedgerCall) : Simulator :=
  match c with
  | DoPlaceOrder sd q => placeOrder sd q s
  | DoProcessOrders bar => processOrders bar s
  | DoUpdateEquity bar => updateEquity bar s
  end.

Definition ledger_calls (cs : list LedgerCall) (s : Simulator) : Simulator :=
  fold_left ledger_call cs s.

Definition is_DoUpdateEquity (c : LedgerCall) : bool :=
  match c with DoUpdateEquity _ => true | _ => false end.

(** ** The moving average of the strategies *)


(** * Properties of the ledger *)

(** C10: [updateEquity] sets the last close to the bar's close, the equity to
    cash plus position times that close, appends that one value to the equity
    curve and records the bar's timestamp; cash, position, average entry
    price, the trade log and the pending-order slot are those of before. *)
Theorem updateEquity_frame (bar : Bar) (s : Simulator) :
  lastClose (updateEquity bar s) = close bar
  /\ equity (updateEquity bar s) = cash s + position s * close bar
  /\ equityCurve (updateEquity bar s)
     = equityCurve s ++ [cash s + position s * close bar]
  /\ last_bar_time_ (updateEquity bar s) = timestamp bar
  /\ cash (updateEquity bar s) = cash s
  /\ position (updateEquity bar s) = position s
  /\ avgEntryPrice (updateEquity bar s) = avgEntryPrice s
  /\ trades (updateEquity bar s) = trades s
  /\ pending_order_ (updateEquity bar s) = pending_order_ s
  /\ has_pending_ (updateEquity bar s) = has_pending_ s
  /\ initial_cash_ (updateEquity bar s) = initial_cash_ s
  /\ commission_ (updateEquity bar s) = commission_ s
  /\ slippage_ (updateEquity bar s) = slippage_ s.
Proof.
  repeat split.
Qed.

(** ** What the fill leaves alone *)

Ltac case_ifs :=
  repeat match goal with
         | |- context [if ?c then _ else _] => destruct c
         end.

Lemma finish_fill_has_pending (bar : Bar) (s : Simulator) :
  has_pending_ (finish_fill bar s) = false.
Proof. reflexivity. Qed.

Lemma open_or_add_has_pending bar fill_price sd qty s :
  has_pending_ (open_or_add bar fill_price sd qty s) = false.
Proof. reflexivity. Qed.

Lemma open_or_add_equity bar fill_price sd qty s :
  equity_ (open_or_add bar fill_price sd qty s) = equity_ s.
Proof. unfold open_or_add. case_ifs; reflexivity. Qed.

Lemma open_or_add_trades bar fill_price sd qty s :
  trades_ (open_or_add bar fill_price sd qty s) = trades_ s.
Proof. unfold open_or_add. case_ifs; reflexivity. Qed.

Lemma open_or_add_equity_curve bar fill_price sd qty s :
  equity_curve_ (open_or_add bar fill_price sd qty s) = equity_curve_ s.
Proof. unfold open_or_add. case_ifs; reflexivity. Qed.

(** Whatever was pending is gone once [processOrders] returns. *)
Lemma processOrders_has_pending (bar : Bar) (s : Simulator) :
  has_pending_ (processOrders bar s) = false.
Proof.
  unfold processOrders.
  destruct (has_pending_ s) eqn:Hp; cbn [negb]; [| exact Hp].
  cbv zeta. case_ifs; reflexivity.
Qed.

Lemma processOrders_equity_curve (bar : Bar) (s : Simulator) :
  equity_curve_ (processOrders bar s) = equity_curve_ s.
Proof.
  unfold processOrders.
  destruct (has_pending_ s); cbn [negb]; [| reflexivity].
  cbv zeta. case_ifs; rewrite ?open_or_add_equity_curve; reflexivity.
Qed.

Lemma placeOrder_equity_curve sd q s :
  equity_curve_ (placeOrder sd q s) = equity_curve_ s.
Proof. unfold placeOrder. case_ifs; reflexivity. Qed.

Lemma place_calls_equity_curve os s :
  equity_curve_ (place_calls os s) = equity_curve_ s.
Proof.
  revert s. induction os as [| o os IH]; intro s; [reflexivity |].
  cbn [place_calls fold_left]. fold (place_calls os (placeOrder (fst o) (snd o) s)).
  rewrite IH. apply placeOrder_equity_curve.
Qed.

(** [placeOrder] writes the pending slot and nothing else. *)
Lemma placeOrder_ledger sd q s :
  cash_ (placeOrder sd q s) = cash_ s
  /\ position_ (placeOrder sd q s) = position_ s
  /\ avg_entry_ (placeOrder sd q s) = avg_entry_ s
  /\ equity_ (placeOrder sd q s) = equity_ s
  /\ last_close_ (placeOrder sd q s) = last_close_ s
  /\ trades_ (placeOrder sd q s) = trades_ s.
Proof. unfold placeOrder. case_ifs; repeat split. Qed.

Lemma place_calls_ledger os s :
  cash_ (place_calls os s) = cash_ s
  /\ position_ (place_calls os s) = position_ s
  /\ avg_entry_ (place_calls os s) = avg_entry_ s
  /\ equity_ (place_calls os s) = equity_ s
  /\ last_close_ (place_calls os s) = last_close_ s
  /\ trades_ (place_calls os s) = trades_ s.
Proof.
  revert s. induction os as [| o os IH]; intro s; [repeat split |].
  cbn [place_calls fold_left]. fold (place_calls os (placeOrder (fst o) (snd o) s)).
  destruct (IH (placeOrder (fst o) (snd o) s)) as (H1 & H2 & H3 & H4 & H5 & H6).
  destruct (placeOrder_ledger (fst o) (snd o) s) as (K1 & K2 & K3 & K4 & K5 & K6).
  repeat split; congruence.
Qed.

(** ** The fill model on the scenarios of the test suite *)

(** C1: the slippage scenario of the test suite (slippage 0.01, Long 10 on a
    bar opening at 100, then Short 10 on a bar opening at 102).  The long leg
    would fill at 100*(1+0.01) = 101 and the short leg at 102*(1-0.01) =
    100.98; [processOrders] fills both at the bare open, 100 and 102, and the
    two assertions of the test on the entry and exit price do not pass. *)
Theorem slippage_scenario_fills_at_bare_open :
  100 * (1 + slippage_ run_simulator_slippage) = 101
  /\ 102 * (1 - slippage_ run_simulator_slippage) = 100.98
  /\ map entry_price (trades run_simulator_slippage) = [100]
  /\ map exit_price (trades run_simulator_slippage) = [102]
  /\ map (fun t => ASSERT_NEAR (entry_price t) 101 1e-6)
       (trades run_simulator_slippage) = [false]
  /\ map (fun t => ASSERT_NEAR (exit_price t) 100.98 1e-6)
       (trades run_simulator_slippage) = [false].
Proof. vm_compute. repeat split. Qed.

(** C2: at the end of the long-trade scenario of the test suite the order has
    closed the position exactly: the position is 0 and the average entry
    price is still the 100 of the entry, not 0. *)
Theorem exact_close_keeps_avg_entry :
  position run_simulator_long_trade = 0
  /\ (position run_simulator_long_trade =? 0) = true
  /\ avgEntryPrice run_simulator_long_trade = 100
  /\ (avgEntryPrice run_simulator_long_trade =? 0) = false.
Proof. vm_compute. repeat split. Qed.

(** C3: with 10000 in cash and a commission of 1, opening Long 5 on a bar
    that opens at 100 leaves 9501 in cash, and opening Short 5 leaves 10501:
    the open leg adds the commission where -(p*q) - commission and
    +(p*q) - commission give 9499 and 10499. *)
Theorem open_leg_adds_commission :
  cash (processOrders commission_bar1 (placeOrder Long 5 (Simulator_new 10000 1 0)))
  = 9501
  /\ 10000 - 100 * 5 - 1 = 9499
  /\ cash (processOrders commission_bar1 (placeOrder Short 5 (Simulator_new 10000 1 0)))
     = 10501
  /\ 10000 + 100 * 5 - 1 = 10499.
Proof. vm_compute. repeat split. Qed.

(** C5: scenario A.  From 10000 in cash with no commission and no slippage,
    Long 10 filled on a bar opening at 100 gives position 10 and cash 9000;
    Short 10 then filled on a bar opening at 102 gives position 0, cash 9020
    and a trade log of exactly one trade, whose pnl is 20.  The other fields
    of the two bars are arbitrary, and marking to market on the first bar in
    between, as the test does, changes none of it. *)
Theorem scenario_A (ts1 ts2 : string) (h1 l1 c1 v1 h2 l2 c2 v2 : float) :
  let b1 := mkBar ts1 100 h1 l1 c1 v1 in
  let b2 := mkBar ts2 102 h2 l2 c2 v2 in
  let s1 := processOrders b1 (placeOrder Long 10 (Simulator_new 10000 0 0)) in
  let s2 := processOrders b2 (placeOrder Short 10 s1) in
  let s2' := processOrders b2 (placeOrder Short 10 (updateEquity b1 s1)) in
  (position s1 = 10 /\ cash s1 = 9000)
  /\ (position s2 = 0 /\ cash s2 = 9020 /\ map pnl (trades s2) = [20])
  /\ (position s2' = 0 /\ cash s2' = 9020 /\ map pnl (trades s2') = [20]).
Proof. intros. repeat split. Qed.

(** * Properties of the orchestration loop *)

Local Close Scope float_scope.

Section LoopFacts.

Context {S : Type} {strat : IStrategy S}.

(** The state of the run once the fill of bar [i] is done. *)
Lemma sim_after_fill (i : nat) (bar : Bar) (bt : Backtester S) :
  sim_ (call_processOrders i bar (setBarIndex i bt)) = processOrders bar (sim_ bt).
Proof. reflexivity. Qed.

(** The ruin branch of the loop body, spelled out. *)
Lemma loop_body_ruin (i : nat) (bar : Bar) (pk : float) (bt : Backtester S) :
  (eq_after_fill bar (processOrders bar (sim_ bt)) <=? 0)%float = true ->
  loop_body i bar pk bt
  = Stop (call_updateEquity i bar
            (set_stopped "no more equity"
               (call_processOrders i bar (setBarIndex i bt)))).
Proof.
  intro Hr. unfold loop_body. cbv zeta.
  rewrite sim_after_fill, Hr. reflexivity.
Qed.

Lemma loop_body_alive (i : nat) (bar : Bar) (pk : float) (bt : Backtester S) :
  (eq_after_fill bar (processOrders bar (sim_ bt)) <=? 0)%float = false ->
  loop_body i bar pk bt = Next (if (pk <? equity (sim_ (bar_done i bar bt)))%float
                                then equity (sim_ (bar_done i bar bt)) else pk)
                               (bar_done i bar bt)
  \/ loop_body i bar pk bt = Stop (set_stopped "no more equity" (bar_done i bar bt))
  \/ loop_body i bar pk bt = Stop (set_stopped "max drawdown 100%" (bar_done i bar bt)).
Proof.
  intro Hr. unfold loop_body. cbv zeta.
  rewrite sim_after_fill, Hr. fold (bar_done i bar bt).
  destruct (equity (sim_ (bar_done i bar bt)) <=? 0)%float; [right; left; reflexivity |].
  match goal with |- context [if (100 <=? ?d)%float then _ else _] => destruct (100 <=? d)%float end.
  - right; right; reflexivity.
  - left; reflexivity.
Qed.

Lemma loop_app (pre rest : list Bar) (i : nat) (pk : float) (bt : Backtester S) :
  loop i (pre ++ rest) pk bt
  = match loop i pre pk bt with
    | Next pk' bt' => loop (i + length pre) rest pk' bt'
    | Stop bt' => Stop bt'
    end.
Proof.
  revert i pk bt. induction pre as [| b pre IH]; intros i pk bt.
  - cbn. rewrite Nat.add_0_r. reflexivity.
  - cbn [app loop length].
    destruct (loop_body i b pk bt) as [pk' bt' | bt']; [| reflexivity].
    rewrite IH. replace (Datatypes.S i + length pre)%nat with (i + Datatypes.S (length pre))%nat by lia.
    reflexivity.
Qed.


(** The two ways the loop body can end, as a case analysis on its result. *)
Lemma loop_body_cases (i : nat) (bar : Bar) (pk : float) (bt : Backtester S) :
  ((eq_after_fill bar (processOrders bar (sim_ bt)) <=? 0)%float = true
   /\ loop_body i bar pk bt
      = Stop (call_updateEquity i bar
                (set_stopped "no more equity"
                   (call_processOrders i bar (setBarIndex i bt)))))
  \/ ((eq_after_fill bar (processOrders bar (sim_ bt)) <=? 0)%float = false
      /\ (loop_body i bar pk bt
          = Next (if (pk <? equity (sim_ (bar_done i bar bt)))%float
                  then equity (sim_ (bar_done i bar bt)) else pk)
              (bar_done i bar bt)
          \/ loop_body i bar pk bt
             = Stop (set_stopped "no more equity" (bar_done i bar bt))
          \/ loop_body i bar pk bt
             = Stop (set_stopped "max drawdown 100%" (bar_done i bar bt)))).
Proof.
  destruct (eq_after_fill bar (processOrders bar (sim_ bt)) <=? 0)%float eqn:Hr.
  - left. split; [reflexivity | apply loop_body_ruin, Hr].
  - right. split; [reflexivity | apply loop_body_alive, Hr].
Qed.

Ltac body_cases i bar pk bt :=
  destruct (loop_body_cases i bar pk bt)
    as [[?Hruin ?Hbody] | [?Halive [?Hbody | [?Hbody | ?Hbody]]]];
  rewrite Hbody in *.

Lemma sim_set_stopped (reason : string) (bt : Backtester S) :
  sim_ (set_stopped reason bt) = sim_ bt.
Proof. reflexivity. Qed.

Lemma bar_done_equity_curve (i : nat) (bar : Bar) (bt : Backtester S) :
  equity_curve_ (sim_ (bar_done i bar bt))
  = equity_curve_ (sim_ bt)
    ++ [(cash (sim_ (bar_done i bar bt))
         + position (sim_ (bar_done i bar bt)) * close bar)%float].
Proof.
  unfold bar_done, call_updateEquity, invoke, call_processOrders.
  cbn [sim_ log_call set_sim set_strategy setBarIndex updateEquity equity_curve_
       push_equity set_equity set_last_close set_last_bar_time equity_ cash
       position cash_ position_].
  rewrite place_calls_equity_curve, processOrders_equity_curve. reflexivity.
Qed.

(** What one pass through the loop body does to the run, whichever way it
    ends: one fill call, one mark to market, one more point on the curve,
    which is the equity of the ledger at that bar's close. *)
Lemma loop_body_effect (i : nat) (bar : Bar) (pk : float) (bt : Backtester S) :
  let bt' := after_loop (loop_body i bar pk bt) in
  data_ bt' = data_ bt
  /\ bt_initial_cash_ bt' = bt_initial_cash_ bt
  /\ (exists mid,
        calls_ bt' = calls_ bt ++ CallProcessOrders i :: mid ++ [CallUpdateEquity i]
        /\ (mid = [] \/ mid = [CallOnBar i]))
  /\ equity_curve_ (sim_ bt')
     = equity_curve_ (sim_ bt)
       ++ [(cash (sim_ bt') + position (sim_ bt') * close bar)%float]
  /\ equity (sim_ bt') = (cash (sim_ bt') + position (sim_ bt') * close bar)%float.
Proof.
  body_cases i bar pk bt; cbn [after_loop];
    (split; [reflexivity |]); (split; [reflexivity |]).
  - split; [exists []; split; [| left; reflexivity] |].
    + cbn. rewrite <- app_assoc. reflexivity.
    + split; [| reflexivity].
      cbn. rewrite processOrders_equity_curve. reflexivity.
  - split; [exists [CallOnBar i]; split; [| right; reflexivity] |].
    + cbn. rewrite <- !app_assoc. reflexivity.
    + split; [apply bar_done_equity_curve | reflexivity].
  - split; [exists [CallOnBar i]; split; [| right; reflexivity] |].
    + cbn. rewrite <- !app_assoc. reflexivity.
    + rewrite !sim_set_stopped.
      split; [apply (bar_done_equity_curve i bar bt) | reflexivity].
  - split; [exists [CallOnBar i]; split; [| right; reflexivity] |].
    + cbn. rewrite <- !app_assoc. reflexivity.
    + rewrite !sim_set_stopped.
      split; [apply (bar_done_equity_curve i bar bt) | reflexivity].
Qed.

(** A [break] sets the flag and one of the two reasons; without one the flag
    and the reason stay as they were. *)
Lemma loop_body_stop (i : nat) (bar : Bar) (pk : float) (bt : Backtester S) :
  match loop_body i bar pk bt with
  | Stop bt' =>
      stopped_early_ bt' = true
      /\ (stop_reason_ bt' = "no more equity"%string
          \/ stop_reason_ bt' = "max drawdown 100%"%string)
  | Next _ bt' =>
      stopped_early_ bt' = stopped_early_ bt /\ stop_reason_ bt' = stop_reason_ bt
  end.
Proof.
  body_cases i bar pk bt; cbn; auto.
Qed.


(** The loop as a whole: [n] bars are gone through, each with one fill call,
    one mark to market and one point on the curve; every bar when there is
    no [break], and on a [break] the last point is the equity at the close of
    the bar that stopped the run. *)
Lemma loop_summary (bs : list Bar) (i : nat) (pk : float) (bt : Backtester S) :
  let r := loop i bs pk bt in
  let bt' := after_loop r in
  exists n,
    n <= length bs
    /\ length (equity_curve_ (sim_ bt')) = length (equity_curve_ (sim_ bt)) + n
    /\ length (filter is_processOrders (calls_ bt'))
       = length (filter is_processOrders (calls_ bt)) + n
    /\ length (filter is_updateEquity (calls_ bt'))
       = length (filter is_updateEquity (calls_ bt)) + n
    /\ (took_break r = false ->
        n = length bs
        /\ stopped_early_ bt' = stopped_early_ bt
        /\ stop_reason_ bt' = stop_reason_ bt)
    /\ (took_break r = true ->
        stopped_early_ bt' = true
        /\ (stop_reason_ bt' = "no more equity"%string
            \/ stop_reason_ bt' = "max drawdown 100%"%string)
        /\ exists prefix bar,
             nth_error bs (n - 1) = Some bar
             /\ 1 <= n
             /\ equity_curve_ (sim_ bt')
                = prefix ++ [(cash (sim_ bt') + position (sim_ bt') * close bar)%float]
             /\ equity (sim_ bt')
                = (cash (sim_ bt') + position (sim_ bt') * close bar)%float).
Proof.
  revert i pk bt. induction bs as [| bar rest IH]; intros i pk bt; cbn zeta.
  - exists 0. cbn. rewrite !Nat.add_0_r.
    split; [lia |]. do 3 (split; [reflexivity |]).
    split; [intros _; repeat split | discriminate].
  - cbn [loop].
    pose proof (loop_body_effect i bar pk bt) as (_ & _ & (mid & Hc & Hmid) & Hcurve & Heq).
    pose proof (loop_body_stop i bar pk bt) as Hstop.
    assert (Hpo : length (filter is_processOrders (calls_ (after_loop (loop_body i bar pk bt))))
                  = Datatypes.S (length (filter is_processOrders (calls_ bt)))).
    { rewrite Hc, filter_app, length_app.
      destruct Hmid as [-> | ->]; cbn; lia. }
    assert (Hue : length (filter is_updateEquity (calls_ (after_loop (loop_body i bar pk bt))))
                  = Datatypes.S (length (filter is_updateEquity (calls_ bt)))).
    { rewrite Hc, filter_app, length_app.
      destruct Hmid as [-> | ->]; cbn; lia. }
    destruct (loop_body i bar pk bt) as [pk1 bt1 | bt1]; cbn [after_loop] in *.
    + destruct (IH (Datatypes.S i) pk1 bt1) as (n & Hn & Hlen & Hp & Hu & Hnb & Hb).
      exists (Datatypes.S n).
      split; [cbn; lia |].
      split; [rewrite Hlen, Hcurve, length_app; cbn; lia |].
      split; [rewrite Hp, Hpo; lia |].
      split; [rewrite Hu, Hue; lia |].
      split.
      * intro Hk. destruct (Hnb Hk) as (-> & Hs & Hr). destruct Hstop as [Hs1 Hr1].
        repeat split; [congruence | congruence].
      * intro Hk. destruct (Hb Hk) as (Hs & Hr & prefix & b & Hnth & Hn1 & Hcv & He).
        split; [exact Hs |]. split; [exact Hr |].
        exists prefix, b. split.
        { replace (Datatypes.S n - 1) with (Datatypes.S (n - 1)) by lia. exact Hnth. }
        split; [lia |]. split; assumption.
    + exists 1. destruct Hstop as [Hs Hr].
      split; [cbn; lia |].
      split; [rewrite Hcurve, length_app; cbn; lia |].
      split; [lia |]. split; [lia |].
      split; [discriminate |].
      intros _. split; [exact Hs |]. split; [exact Hr |].
      exists (equity_curve_ (sim_ bt)), bar. repeat split; auto.
Qed.

Lemma loop_data (bs : list Bar) (i : nat) (pk : float) (bt : Backtester S) :
  data_ (after_loop (loop i bs pk bt)) = data_ bt.
Proof.
  revert i pk bt. induction bs as [| bar rest IH]; intros i pk bt; [reflexivity |].
  cbn [loop].
  pose proof (loop_body_effect i bar pk bt) as (Hd & _).
  destruct (loop_body i bar pk bt) as [pk1 bt1 | bt1]; cbn [after_loop] in *.
  - rewrite IH. exact Hd.
  - exact Hd.
Qed.

(** Every call the loop logs from bar [i] on is for a bar between [i] and the
    last one it was given. *)
Lemma loop_calls_below (bs : list Bar) (i : nat) (pk : float) (bt : Backtester S) :
  (forall c j, In c (calls_ bt) -> bar_of_call c = Some j -> j < i) ->
  forall c j, In c (calls_ (after_loop (loop i bs pk bt))) ->
              bar_of_call c = Some j -> j < i + length bs.
Proof.
  revert i pk bt. induction bs as [| bar rest IH]; intros i pk bt Hlt c j Hin Hj.
  - cbn in *. specialize (Hlt c j Hin Hj). lia.
  - cbn [loop] in Hin.
    pose proof (loop_body_effect i bar pk bt) as (_ & _ & (mid & Hc & Hmid) & _).
    assert (Hlt1 : forall c j, In c (calls_ (after_loop (loop_body i bar pk bt))) ->
                               bar_of_call c = Some j -> j < Datatypes.S i).
    { intros c0 j0 Hin0 Hj0. rewrite Hc in Hin0.
      apply in_app_or in Hin0. destruct Hin0 as [Hin0 | Hin0].
      - specialize (Hlt c0 j0 Hin0 Hj0). lia.
      - destruct Hin0 as [<- | Hin0]; [cbn in Hj0; injection Hj0 as <-; lia |].
        apply in_app_or in Hin0. destruct Hin0 as [Hin0 | [<- | []]].
        + destruct Hmid as [-> | ->]; [destruct Hin0 |].
          destruct Hin0 as [<- | []]. cbn in Hj0. injection Hj0 as <-. lia.
        + cbn in Hj0. injection Hj0 as <-. lia. }
    destruct (loop_body i bar pk bt) as [pk1 bt1 | bt1]; cbn [after_loop] in *.
    + specialize (IH (Datatypes.S i) pk1 bt1 Hlt1 c j Hin Hj). cbn [length]. lia.
    + specialize (Hlt1 c j Hin Hj). cbn [length]. lia.
Qed.

Lemma Call_eqb_eq (a b : Call) : Call_eqb a b = true <-> a = b.
Proof.
  destruct a, b; cbn; rewrite ?Nat.eqb_eq; split; intro H;
    try discriminate; try reflexivity; try (f_equal; assumption);
    try (injection H as ->; reflexivity).
Qed.

Lemma count_call_absent (c : Call) (l : list Call) :
  ~ In c l -> count_call c l = 0.
Proof.
  unfold count_call. induction l as [| x l IH]; intro Hn; [reflexivity |].
  cbn [filter]. destruct (Call_eqb c x) eqn:E.
  - apply Call_eqb_eq in E. subst x. exfalso. apply Hn. left. reflexivity.
  - apply IH. intro Hin. apply Hn. right. exact Hin.
Qed.

Lemma count_call_app (c : Call) (l1 l2 : list Call) :
  count_call c (l1 ++ l2) = count_call c l1 + count_call c l2.
Proof. unfold count_call. rewrite filter_app, length_app. reflexivity. Qed.


Variable load : string -> option (list Bar).
Variable loadFromDatabentoDir : string -> string -> option (list Bar).
Variable regroup : nat -> list Bar -> list Bar.

#[local] Abbreviation run' := (run load loadFromDatabentoDir regroup).
#[local] Abbreviation load_data' := (load_data load loadFromDatabentoDir).

Lemma run_load_failed (bt : Backtester S) :
  load_data' bt = None -> run' bt = (false, set_data [] bt).
Proof. intro Hl. unfold run. rewrite Hl. reflexivity. Qed.

Lemma run_load_empty (bt : Backtester S) :
  load_data' bt = Some [] -> run' bt = (false, set_data [] bt).
Proof. intro Hl. unfold run. rewrite Hl. reflexivity. Qed.

Lemma run_load_ok (bt : Backtester S) (b : Bar) (bs : list Bar) :
  load_data' bt = Some (b :: bs) ->
  run' bt
  = (true, invoke onEnd CallOnEnd
             (after_loop (run_loaded regroup (set_data (b :: bs) bt)))).
Proof. intro Hl. unfold run. rewrite Hl. reflexivity. Qed.

(** The hooks around the loop leave the ledger, the curve and the bars as
    they are and add their one call to the log. *)
Lemma invoke_effect (hook : BacktestContext -> S -> S * list PlaceCall)
    (c : Call) (bt : Backtester S) :
  data_ (invoke hook c bt) = data_ bt
  /\ calls_ (invoke hook c bt) = calls_ bt ++ [c]
  /\ stopped_early_ (invoke hook c bt) = stopped_early_ bt
  /\ stop_reason_ (invoke hook c bt) = stop_reason_ bt
  /\ bt_initial_cash_ (invoke hook c bt) = bt_initial_cash_ bt
  /\ equity_curve_ (sim_ (invoke hook c bt)) = equity_curve_ (sim_ bt)
  /\ cash_ (sim_ (invoke hook c bt)) = cash_ (sim_ bt)
  /\ position_ (sim_ (invoke hook c bt)) = position_ (sim_ bt)
  /\ equity_ (sim_ (invoke hook c bt)) = equity_ (sim_ bt).
Proof.
  unfold invoke. cbn [data_ calls_ stopped_early_ stop_reason_ bt_initial_cash_
                      sim_ log_call set_sim set_strategy].
  destruct (place_calls_ledger (snd (hook (ctx_of bt) (strategy_ bt))) (sim_ bt))
    as (H1 & H2 & _ & H4 & _).
  rewrite place_calls_equity_curve. repeat split; assumption.
Qed.


#[local] Abbreviation new_bt := (@Backtester_new S).

(** The state in which a fresh backtester enters the loop. *)
Lemma started_fresh (bt : Backtester S) (d : list Bar) :
  calls_ bt = [] -> equity_curve_ (sim_ bt) = [] ->
  let bt0 := started regroup (set_data d bt) in
  calls_ bt0 = [CallOnStart]
  /\ equity_curve_ (sim_ bt0) = []
  /\ stopped_early_ bt0 = stopped_early_ bt
  /\ stop_reason_ bt0 = stop_reason_ bt
  /\ data_ bt0 = aggregateBars regroup (bar_resolution_ bt) d.
Proof.
  intros Hc Hq bt0. unfold bt0, started.
  match goal with |- context [invoke ?h ?c ?b] =>
    destruct (invoke_effect h c b) as (Hd & Hcl & Hs & Hr & _ & Hcv & _)
  end.
  rewrite Hd, Hcl, Hs, Hr, Hcv. cbn. rewrite Hc, Hq. repeat split.
Qed.

(** C7: each [updateEquity] call appends exactly one value, the equity it
    has just computed.  At the end of a run the curve has one point per bar
    gone through (one per fill call, one per mark to market); that is at
    most the number of bars, fewer only if the run stopped early, and on an
    early stop the last point is the equity at the close of the bar that
    stopped the run. *)
Theorem equity_curve_one_point_per_bar
    (strategy : S) (data_path : string) (initial_cash commission : float)
    (databento_dir symbol_filter bar_resolution : string) (slippage : float) :
  let bt := new_bt strategy data_path initial_cash commission databento_dir
              symbol_filter bar_resolution slippage in
  let final := snd (run' bt) in
  let curve := equityCurve (simulator final) in
  (forall bar s,
      equityCurve (updateEquity bar s)
      = equityCurve s ++ [equity (updateEquity bar s)])
  /\ length curve = length (filter is_updateEquity (calls_ final))
  /\ length curve = length (filter is_processOrders (calls_ final))
  /\ length curve <= length (data_ final)
  /\ (length curve < length (data_ final) -> stoppedEarly final = true)
  /\ (stoppedEarly final = true ->
      exists prefix bar,
        nth_error (data_ final) (length curve - 1) = Some bar
        /\ curve = prefix ++ [equity (simulator final)]
        /\ equity (simulator final)
           = (cash (simulator final) + position (simulator final) * close bar)%float).
Proof.
  intros bt final curve. split; [reflexivity |].
  subst curve final. unfold equityCurve, stoppedEarly, simulator, equity, cash, position.
  destruct (load_data' bt) as [[| b bs] |] eqn:Hl.
  - rewrite (run_load_empty _ Hl). cbn.
    repeat split; try lia; try discriminate.
  - rewrite (run_load_ok bt b bs Hl). cbn [snd].
    unfold run_loaded. cbv zeta.
    destruct (started_fresh bt (b :: bs) eq_refl eq_refl) as (Hc0 & Hq0 & Hs0 & _ & _).
    set (bt0 := started regroup (set_data (b :: bs) bt)) in *.
    pose proof (loop_data (data_ bt0) 0 (bt_initial_cash_ bt0) bt0) as Hdata.
    destruct (loop_summary (data_ bt0) 0 (bt_initial_cash_ bt0) bt0)
      as (n & Hn & Hlen & Hp & Hu & Hnb & Hb).
    set (r := loop 0 (data_ bt0) (bt_initial_cash_ bt0) bt0) in *.
    destruct (invoke_effect onEnd CallOnEnd (after_loop r))
      as (Hd & Hcl & Hs & _ & _ & Hcv & Hca & Hpos & Heq).
    rewrite Hd, Hcl, Hs, Hcv, Hca, Hpos, Heq, Hdata.
    rewrite !filter_app, !length_app. cbn [filter is_updateEquity is_processOrders length].
    rewrite Hlen, Hp, Hu, Hc0, Hq0. cbn [filter is_updateEquity is_processOrders length].
    split; [lia |]. split; [lia |]. split; [lia |].
    split.
    + intro Hlt. destruct (took_break r) eqn:Hk.
      * apply (Hb eq_refl).
      * destruct (Hnb eq_refl) as (-> & _). lia.
    + intro Hst. destruct (took_break r) eqn:Hk.
      * destruct (Hb eq_refl) as (_ & _ & prefix & bar & Hnth & Hn1 & Hcurve & He).
        exists prefix, bar. unfold equity, cash, position in *.
        rewrite He. cbn [Nat.add]. repeat split; assumption.
      * destruct (Hnb eq_refl) as (_ & Hs1 & _). rewrite Hs1, Hs0 in Hst. discriminate.
  - rewrite (run_load_failed _ Hl). cbn.
    repeat split; try lia; try discriminate.
Qed.


(** C8: [run] returns [false] exactly when the bars could not be loaded or
    none was loaded, and then no hook has been called, no bar gone through
    and the ledger is untouched.  With bars loaded it returns [true], also
    when the loop took a [break]: the flag is then set and the reason is one
    of the two strings; without a [break] the flag stays clear. *)
Theorem run_fails_only_without_data
    (strategy : S) (data_path : string) (initial_cash commission : float)
    (databento_dir symbol_filter bar_resolution : string) (slippage : float) :
  let bt := new_bt strategy data_path initial_cash commission databento_dir
              symbol_filter bar_resolution slippage in
  let res := run' bt in
  (fst res = false <-> (load_data' bt = None \/ load_data' bt = Some []))
  /\ (fst res = false ->
      calls_ (snd res) = []
      /\ simulator (snd res) = simulator bt
      /\ strategy_ (snd res) = strategy_ bt
      /\ stoppedEarly (snd res) = false)
  /\ (forall loaded,
         load_data' bt = Some loaded -> is_empty loaded = false ->
         let lp := run_loaded regroup (set_data loaded bt) in
         fst res = true
         /\ (took_break lp = true ->
             stoppedEarly (snd res) = true
             /\ (stopReason (snd res) = "no more equity"%string
                 \/ stopReason (snd res) = "max drawdown 100%"%string))
         /\ (took_break lp = false -> stoppedEarly (snd res) = false)).
Proof.
  intros bt res. subst res.
  destruct (load_data' bt) as [[| b bs] |] eqn:Hl.
  - rewrite (run_load_empty bt Hl). cbn [fst snd].
    split; [split; [right; reflexivity | reflexivity] |].
    split; [intros _; repeat split |].
    intros loaded Heq He. injection Heq as <-. discriminate He.
  - rewrite (run_load_ok bt b bs Hl). cbn [fst snd].
    split; [split; [discriminate | intros [H0 | H0]; discriminate H0] |].
    split; [discriminate |].
    intros loaded Heq _. injection Heq as <-. cbv zeta.
    unfold run_loaded. cbv zeta.
    destruct (started_fresh bt (b :: bs) eq_refl eq_refl) as (_ & _ & Hs0 & _ & _).
    set (bt0 := started regroup (set_data (b :: bs) bt)) in *.
    destruct (loop_summary (data_ bt0) 0 (bt_initial_cash_ bt0) bt0)
      as (n & _ & _ & _ & _ & Hnb & Hb).
    set (r := loop 0 (data_ bt0) (bt_initial_cash_ bt0) bt0) in *.
    destruct (invoke_effect onEnd CallOnEnd (after_loop r))
      as (_ & _ & Hs & Hr & _).
    unfold stoppedEarly, stopReason. rewrite Hs, Hr.
    split; [reflexivity |]. split.
    + intro Hk. destruct (Hb Hk) as (H1 & H2 & _). split; assumption.
    + intro Hk. destruct (Hnb Hk) as (_ & H1 & _). rewrite H1, Hs0. reflexivity.
  - rewrite (run_load_failed bt Hl). cbn [fst snd].
    split; [split; [left; reflexivity | reflexivity] |].
    split; [intros _; repeat split |].
    intros loaded Heq. discriminate Heq.
Qed.

(** The calls logged before bar [i] is reached are for earlier bars. *)
Lemma reached_calls_below (bt0 : Backtester S) (pre : list Bar) (pk0 pk : float)
    (btI : Backtester S) :
  calls_ bt0 = [CallOnStart] ->
  loop 0 pre pk0 bt0 = Next pk btI ->
  forall c j, In c (calls_ btI) -> bar_of_call c = Some j -> j < length pre.
Proof.
  intros Hc Hl c j Hin Hj.
  pose proof (loop_calls_below pre 0 pk0 bt0) as Hb.
  rewrite Hl in Hb. cbn [after_loop Nat.add] in Hb.
  apply (Hb) with (c := c); try assumption.
  intros c0 j0 Hin0 Hj0. rewrite Hc in Hin0.
  destruct Hin0 as [<- | []]. discriminate Hj0.
Qed.

(** C6: when bar [i] of a run is reached and the open-based equity right
    after its fill is [<= 0], the run ends there: it returns [true] with the
    flag set and the reason "no more equity"; the log ends with the fill call
    and one mark to market for bar [i] and the closing hook, so that
    [updateEquity] is called once for bar [i], [onBar] not at all, and no call
    is made for a later bar; the curve gets one last point, the equity at
    that bar's close. *)
Theorem ruin_at_open_stops_run
    (strategy : S) (data_path : string) (initial_cash commission : float)
    (databento_dir symbol_filter bar_resolution : string) (slippage : float)
    (loaded pre rest : list Bar) (bar : Bar) (pk : float) (btI : Backtester S) :
  let bt := new_bt strategy data_path initial_cash commission databento_dir
              symbol_filter bar_resolution slippage in
  let bt0 := started regroup (set_data loaded bt) in
  let i := length pre in
  load_data' bt = Some loaded ->
  is_empty loaded = false ->
  data_ bt0 = pre ++ bar :: rest ->
  loop 0 pre (bt_initial_cash_ bt0) bt0 = Next pk btI ->
  (eq_after_fill bar (processOrders bar (sim_ btI)) <=? 0)%float = true ->
  let res := run' bt in
  let final := snd res in
  fst res = true
  /\ stoppedEarly final = true
  /\ stopReason final = "no more equity"%string
  /\ calls_ final
     = calls_ btI ++ [CallProcessOrders i; CallUpdateEquity i; CallOnEnd]
  /\ count_call (CallUpdateEquity i) (calls_ final) = 1
  /\ count_call (CallOnBar i) (calls_ final) = 0
  /\ (forall c j, In c (calls_ final) -> bar_of_call c = Some j -> j <= i)
  /\ equityCurve (simulator final)
     = equityCurve (simulator btI) ++ [equity (simulator final)]
  /\ equity (simulator final)
     = (cash (processOrders bar (sim_ btI))
        + position (processOrders bar (sim_ btI)) * close bar)%float.
Proof.
  intros bt bt0 i Hl He Hd Hreach Hruin res final.
  destruct loaded as [| b bs]; [discriminate He |].
  subst res final. rewrite (run_load_ok bt b bs Hl). cbn [fst snd].
  unfold run_loaded. cbv zeta. fold bt0.
  rewrite Hd, loop_app, Hreach. cbn [loop Nat.add]. fold i.
  rewrite (loop_body_ruin i bar pk btI Hruin). cbn [after_loop].
  set (stopped := call_updateEquity i bar
                    (set_stopped "no more equity"
                       (call_processOrders i bar (setBarIndex i btI)))).
  destruct (invoke_effect onEnd CallOnEnd stopped)
    as (_ & Hcl & Hs & Hr & _ & Hcv & Hca & Hpos & Heq).
  destruct (started_fresh bt (b :: bs) eq_refl eq_refl) as (Hc0 & _).
  fold bt0 in Hc0.
  pose proof (reached_calls_below bt0 pre _ pk btI Hc0 Hreach) as Hbelow.
  fold i in Hbelow.
  assert (Hcalls : calls_ (invoke onEnd CallOnEnd stopped)
                   = calls_ btI ++ [CallProcessOrders i; CallUpdateEquity i; CallOnEnd]).
  { rewrite Hcl. unfold stopped. cbn. rewrite <- !app_assoc. reflexivity. }
  unfold stoppedEarly, stopReason, equityCurve, simulator, equity.
  rewrite Hs, Hr, Hcv, Heq, Hcalls.
  split; [reflexivity |]. split; [reflexivity |]. split; [reflexivity |].
  split; [reflexivity |].
  split.
  { rewrite count_call_app, count_call_absent.
    - unfold count_call. cbn. rewrite Nat.eqb_refl. reflexivity.
    - intro Hin. specialize (Hbelow _ i Hin eq_refl). lia. }
  split.
  { rewrite count_call_app, count_call_absent.
    - reflexivity.
    - intro Hin. specialize (Hbelow _ i Hin eq_refl). lia. }
  split.
  { intros c j Hin Hj. apply in_app_or in Hin. destruct Hin as [Hin | Hin].
    - specialize (Hbelow c j Hin Hj). lia.
    - destruct Hin as [<- | [<- | [<- | []]]]; cbn in Hj;
        try discriminate; injection Hj as <-; lia. }
  split.
  { unfold stopped. cbn. rewrite processOrders_equity_curve. reflexivity. }
  reflexivity.
Qed.

End LoopFacts.

(** * Further properties of the ledger *)

Local Open Scope float_scope.

(** ** The pending-order slot *)

(** After the [placeOrder] calls of one hook the slot holds the last call
    whose quantity was not [<= 0], as a market order; when there is no such
    call the ledger is exactly as before. *)
Theorem place_calls_latest_wins (os : list PlaceCall) (s : Simulator) :
  match last_accepted os with
  | Some o =>
      has_pending_ (place_calls os s) = true
      /\ side (pending_order_ (place_calls os s)) = fst o
      /\ quantity (pending_order_ (place_calls os s)) = snd o
      /\ type (pending_order_ (place_calls os s)) = Market
  | None => place_calls os s = s
  end.
Proof.
  revert s. induction os as [| o os IH]; intro s; [reflexivity |].
  cbn [last_accepted place_calls fold_left].
  fold (place_calls os (placeOrder (fst o) (snd o) s)).
  specialize (IH (placeOrder (fst o) (snd o) s)).
  destruct (last_accepted os) as [o' |]; [exact IH |].
  rewrite IH. unfold accepted, placeOrder.
  destruct (snd o <=? 0); cbn [negb]; [reflexivity | repeat split].
Qed.

(** With nothing pending [processOrders] returns the ledger as it is. *)
Lemma processOrders_idle (bar : Bar) (s : Simulator) :
  has_pending_ s = false -> processOrders bar s = s.
Proof. intro Hp. unfold processOrders. rewrite Hp. reflexivity. Qed.

(** An order is filled once: after a fill, a further [processOrders], on
    any bar, with or without a mark to market in between, changes nothing. *)
Theorem processOrders_fills_once (b1 b2 b : Bar) (s : Simulator) :
  processOrders b2 (processOrders b1 s) = processOrders b1 s
  /\ processOrders b2 (updateEquity b (processOrders b1 s))
     = updateEquity b (processOrders b1 s).
Proof.
  split; apply processOrders_idle.
  - apply processOrders_has_pending.
  - cbn. apply processOrders_has_pending.
Qed.

(** ** Order facts on binary64 values *)

(** Comparing the other way round gives the opposite answer; there is none
    when one side is a NaN. *)
Lemma SFcompare_antisym (x y : SpecFloat.spec_float) :
  SpecFloat.SFcompare y x = option_map CompOpp (SpecFloat.SFcompare x y).
Proof.
  destruct x as [sx | sx | | sx mx ex], y as [sy | sy | | sy my ey]; cbn;
    try reflexivity;
    try (destruct sx; reflexivity);
    try (destruct sy; reflexivity);
    try (destruct sx, sy; reflexivity).
  destruct sx, sy; cbn; try reflexivity.
  - rewrite (Z.compare_antisym ey ex).
    destruct (Z.compare ey ex); cbn; try reflexivity.
    rewrite (Pos.compare_cont_antisym mx my Eq). reflexivity.
  - rewrite (Z.compare_antisym ey ex).
    destruct (Z.compare ey ex); cbn; try reflexivity.
    rewrite (Pos.compare_cont_antisym mx my Eq). reflexivity.
Qed.

Lemma SFcompare_refl (x : SpecFloat.spec_float) :
  SpecFloat.SFcompare x x = None \/ SpecFloat.SFcompare x x = Some Eq.
Proof.
  destruct x as [sx | sx | | sx mx ex]; cbn; auto.
  - destruct sx; auto.
  - right. rewrite Z.compare_refl.
    destruct sx; cbn; rewrite Pos.compare_cont_refl; reflexivity.
Qed.

(** [x == x] fails only for a NaN, and then every comparison is false. *)
Lemma leb_refl (x : float) : (x =? x) = true -> (x <=? x) = true.
Proof.
  rewrite FloatAxioms.eqb_spec, FloatAxioms.leb_spec.
  unfold SpecFloat.SFeqb, SpecFloat.SFleb.
  destruct (SFcompare_refl (FloatOps.Prim2SF x)) as [-> | ->]; [discriminate | reflexivity].
Qed.

Lemma ltb_leb (x y : float) : (x <? y) = true -> (x <=? y) = true.
Proof.
  rewrite FloatAxioms.ltb_spec, FloatAxioms.leb_spec.
  unfold SpecFloat.SFltb, SpecFloat.SFleb.
  destruct (SpecFloat.SFcompare (FloatOps.Prim2SF x) (FloatOps.Prim2SF y)) as [[| |] |];
    try discriminate; reflexivity.
Qed.

Lemma not_ltb_leb (x y : float) :
  (x =? x) = true -> (y =? y) = true -> (y <? x) = false -> (x <=? y) = true.
Proof.
  rewrite !FloatAxioms.eqb_spec, FloatAxioms.ltb_spec, FloatAxioms.leb_spec.
  unfold SpecFloat.SFeqb, SpecFloat.SFltb, SpecFloat.SFleb.
  rewrite (SFcompare_antisym (FloatOps.Prim2SF x) (FloatOps.Prim2SF y)).
  intros Hx Hy.
  destruct (SpecFloat.SFcompare (FloatOps.Prim2SF x) (FloatOps.Prim2SF y)) as [[| |] |] eqn:E;
    cbn; try discriminate; try reflexivity.
  exfalso.
  destruct (FloatOps.Prim2SF x) as [sx | sx | | sx mx ex], (FloatOps.Prim2SF y) as [sy | sy | | sy my ey];
    cbn in *; discriminate.
Qed.

Lemma ltb_asym (x y : float) : (x <? y) = true -> (y <? x) = false.
Proof.
  rewrite !FloatAxioms.ltb_spec. unfold SpecFloat.SFltb.
  rewrite (SFcompare_antisym (FloatOps.Prim2SF x) (FloatOps.Prim2SF y)).
  destruct (SpecFloat.SFcompare (FloatOps.Prim2SF x) (FloatOps.Prim2SF y)) as [[| |] |];
    cbn; try discriminate; reflexivity.
Qed.

Lemma eqb_zero_not_ltb (p : float) :
  (p =? 0) = true -> (p <? 0) = false /\ (0 <? p) = false.
Proof.
  rewrite FloatAxioms.eqb_spec, !FloatAxioms.ltb_spec.
  unfold SpecFloat.SFeqb, SpecFloat.SFltb.
  change (FloatOps.Prim2SF 0) with (SpecFloat.S754_zero false).
  destruct (FloatOps.Prim2SF p) as [sg | sg | | sg m e]; cbn; try discriminate; auto;
    destruct sg; discriminate.
Qed.

Lemma abs_not_nan (x : float) : (x =? x) = true -> (abs x =? abs x) = true.
Proof.
  rewrite !FloatAxioms.eqb_spec, FloatAxioms.abs_spec. unfold SpecFloat.SFeqb.
  destruct (FloatOps.Prim2SF x) as [sx | sx | | sx mx ex]; cbn; try discriminate; auto.
  rewrite Z.compare_refl, Pos.compare_cont_refl. destruct sx; auto.
Qed.

(** [std::min] of two values that are not NaN is below both. *)
Lemma fmin_below (a b : float) :
  (a =? a) = true -> (b =? b) = true ->
  (fmin a b <=? a) = true /\ (fmin a b <=? b) = true.
Proof.
  intros Ha Hb. unfold fmin. destruct (b <? a) eqn:E.
  - split; [apply ltb_leb, E | apply leb_refl, Hb].
  - split; [apply leb_refl, Ha | apply not_ltb_leb; assumption].
Qed.

(** ** What a fill writes *)

(** [processOrders] appends a trade exactly when an order is pending whose
    side is opposite to the sign of the position, and then exactly one: the
    trade carries the stored entry time and average entry price, the bar's
    timestamp and open as exit, the closed quantity
    [min(order quantity, |position|)], the side of the position that was
    closed, and the profit of the leg less the commission.  In every other
    case the trade log and the stored equity are left as they are. *)
Theorem processOrders_trade_log (bar : Bar) (s : Simulator) :
  let sd := side (pending_order_ s) in
  let close_qty := fmin (quantity (pending_order_ s)) (abs (position s)) in
  if has_pending_ s
     && ((Side_eqb sd Long && (position s <? 0))
         || (Side_eqb sd Short && (0 <? position s)))
  then
    exists t,
      trades (processOrders bar s) = trades s ++ [t]
      /\ entry_time t = last_bar_time_ s
      /\ exit_time t = timestamp bar
      /\ entry_price t = avgEntryPrice s
      /\ exit_price t = open bar
      /\ trade_quantity t = close_qty
      /\ trade_side t = match sd with Long => Short | Short => Long end
      /\ pnl t
         = match sd with
           | Long => (avgEntryPrice s - open bar) * close_qty
           | Short => (open bar - avgEntryPrice s) * close_qty
           end - commission_ s
  else
    trades (processOrders bar s) = trades s
    /\ equity (processOrders bar s) = equity s.
Proof.
  unfold trades, equity, position, avgEntryPrice, processOrders. cbv zeta.
  destruct (has_pending_ s); cbn [negb andb]; [| split; reflexivity].
  destruct (side (pending_order_ s)); cbn [Side_eqb andb orb].
  - destruct (position_ s <? 0) eqn:Hneg; cbn [andb orb].
    + cbn [cash_ position_ avg_entry_ commission_ last_bar_time_
           set_cash set_equity].
      rewrite (ltb_asym _ _ Hneg).
      match goal with |- context [push_trade ?t _] => exists t end.
      split; [| repeat split].
      case_ifs; try rewrite open_or_add_trades; reflexivity.
    + rewrite open_or_add_trades, open_or_add_equity. split; reflexivity.
  - destruct (0 <? position_ s) eqn:Hpos; cbn [andb orb].
    + cbn [cash_ position_ avg_entry_ commission_ last_bar_time_
           set_cash set_equity].
      rewrite !Hpos.
      match goal with |- context [push_trade ?t _] => exists t end.
      split; [| repeat split].
      case_ifs; try rewrite open_or_add_trades; reflexivity.
    + rewrite open_or_add_trades, open_or_add_equity. split; reflexivity.
Qed.

(** Case analysis on the branches of a fill that decide the ledger, leaving
    the conditionals inside a trade record alone. *)
Ltac ledger_ifs :=
  repeat match goal with
         | |- context [if ?c then ?a else _] =>
             match type of a with Simulator => destruct c end
         end.

(** A fill leaves the trade log alone or adds one trade to it, for the
    quantity [min(order quantity, |position|)]. *)
Lemma processOrders_trades_shape (bar : Bar) (s : Simulator) :
  trades_ (processOrders bar s) = trades_ s
  \/ exists t,
       trades_ (processOrders bar s) = trades_ s ++ [t]
       /\ trade_quantity t = fmin (quantity (pending_order_ s)) (abs (position_ s)).
Proof.
  unfold processOrders. cbv zeta.
  destruct (has_pending_ s); cbn [negb]; [| left; reflexivity].
  match goal with
  | |- context [if ?c then _ else open_or_add _ _ _ _ s] => destruct c
  end.
  - right.
    match goal with |- context [push_trade ?t _] => exists t end.
    split; [| reflexivity].
    ledger_ifs; try rewrite open_or_add_trades; reflexivity.
  - left. apply open_or_add_trades.
Qed.

(** The closed quantity of a recorded trade exceeds neither the order's
    quantity nor the size of the position, whenever neither is a NaN. *)
Theorem closed_quantity_bounded (bar : Bar) (s : Simulator) (t : Trade) :
  (quantity (pending_order_ s) =? quantity (pending_order_ s)) = true ->
  (position s =? position s) = true ->
  trades (processOrders bar s) = trades s ++ [t] ->
  (trade_quantity t <=? quantity (pending_order_ s)) = true
  /\ (trade_quantity t <=? abs (position s)) = true.
Proof.
  unfold trades, position. intros Hq Hp Ht.
  destruct (processOrders_trades_shape bar s) as [H | (t' & Ht' & Hqty)].
  - rewrite H in Ht.
    apply (f_equal (@List.length Trade)) in Ht. rewrite length_app in Ht.
    cbn in Ht. lia.
  - rewrite Ht in Ht'. apply app_inj_tail in Ht'. destruct Ht' as [_ ->].
    rewrite Hqty. apply fmin_below; [exact Hq | apply abs_not_nan, Hp].
Qed.

Lemma open_or_add_config bar fill_price sd qty s :
  initial_cash_ (open_or_add bar fill_price sd qty s) = initial_cash_ s
  /\ commission_ (open_or_add bar fill_price sd qty s) = commission_ s
  /\ slippage_ (open_or_add bar fill_price sd qty s) = slippage_ s
  /\ last_close_ (open_or_add bar fill_price sd qty s) = last_close_ s
  /\ pending_order_ (open_or_add bar fill_price sd qty s) = pending_order_ s
  /\ last_bar_time_ (open_or_add bar fill_price sd qty s) = timestamp bar.
Proof. unfold open_or_add. ledger_ifs; repeat split. Qed.

(** What a fill leaves of the configuration and of the order slot. *)
Lemma processOrders_config (bar : Bar) (s : Simulator) :
  initial_cash_ (processOrders bar s) = initial_cash_ s
  /\ commission_ (processOrders bar s) = commission_ s
  /\ slippage_ (processOrders bar s) = slippage_ s
  /\ last_close_ (processOrders bar s) = last_close_ s
  /\ pending_order_ (processOrders bar s) = pending_order_ s
  /\ (has_pending_ s = true -> last_bar_time_ (processOrders bar s) = timestamp bar).
Proof.
  unfold processOrders. cbv zeta.
  destruct (has_pending_ s); cbn [negb]; [| repeat split; discriminate].
  ledger_ifs;
    repeat match goal with
           | |- context [open_or_add ?b ?f ?sd ?q ?x] =>
               destruct (open_or_add_config b f sd q x) as (-> & -> & -> & -> & -> & ->)
           end;
    repeat split.
Qed.

(** [processOrders] never writes the configuration, the last close, the
    equity curve or the contents of the order slot; it always leaves the
    slot empty, stamps the bar's time whenever an order was pending, and
    does nothing at all when none was. *)
Theorem processOrders_frame (bar : Bar) (s : Simulator) :
  initial_cash_ (processOrders bar s) = initial_cash_ s
  /\ commission_ (processOrders bar s) = commission_ s
  /\ slippage_ (processOrders bar s) = slippage_ s
  /\ lastClose (processOrders bar s) = lastClose s
  /\ equityCurve (processOrders bar s) = equityCurve s
  /\ pending_order_ (processOrders bar s) = pending_order_ s
  /\ has_pending_ (processOrders bar s) = false
  /\ (has_pending_ s = true -> last_bar_time_ (processOrders bar s) = timestamp bar)
  /\ (has_pending_ s = false -> processOrders bar s = s).
Proof.
  destruct (processOrders_config bar s) as (H1 & H2 & H3 & H4 & H5 & H6).
  repeat match goal with |- _ /\ _ => split end; try assumption.
  - apply processOrders_equity_curve.
  - apply processOrders_has_pending.
  - apply processOrders_idle.
Qed.

(** An order filled on a flat ledger opens the position: the position is
    the order's quantity, signed by its side, the average entry price is the
    bar's open, and neither the trade log nor the stored equity changes. *)
Theorem fill_from_flat (bar : Bar) (s : Simulator) :
  has_pending_ s = true ->
  (position s =? 0) = true ->
  (0 <? quantity (pending_order_ s)) = true ->
  position (processOrders bar s)
  = match side (pending_order_ s) with
    | Long => quantity (pending_order_ s)
    | Short => - quantity (pending_order_ s)
    end
  /\ avgEntryPrice (processOrders bar s) = open bar
  /\ trades (processOrders bar s) = trades s
  /\ equity (processOrders bar s) = equity s.
Proof.
  unfold position, avgEntryPrice, trades, equity. intros Hp Hz Hq.
  destruct (eqb_zero_not_ltb _ Hz) as [Hn1 Hn2].
  unfold processOrders. rewrite Hp, Hn1, Hn2. cbn [negb]. cbv zeta.
  rewrite !andb_false_r. cbn [orb].
  unfold open_or_add. rewrite Hq. cbn [set_cash position_]. rewrite Hz.
  destruct (side (pending_order_ s)); repeat split.
Qed.

Lemma fill_from_flat_witness :
  position (processOrders long_trade_bar1 (placeOrder Long 10 (Simulator_new 10000 0 0)))
  = 10.
Proof.
  apply (fill_from_flat long_trade_bar1 (placeOrder Long 10 (Simulator_new 10000 0 0)));
    reflexivity.
Defined.

Lemma closed_quantity_bounded_witness :
  (10 <=? 10) = true /\ (10 <=? abs 10) = true.
Proof.
  apply (closed_quantity_bounded long_trade_bar2
           (placeOrder Short 10
              (updateEquity long_trade_bar1
                 (processOrders long_trade_bar1
                    (placeOrder Long 10 (Simulator_new 10000 0 0)))))
           (mkTrade "2024-01-01T10:00" "2024-01-01T10:15" Long 10 100 102 20 2));
    reflexivity.
Defined.

Lemma processOrders_frame_witness :
  last_bar_time_ (processOrders long_trade_bar1 (placeOrder Long 10 (Simulator_new 10000 0 0)))
  = timestamp long_trade_bar1
  /\ processOrders long_trade_bar1 (Simulator_new 10000 0 0) = Simulator_new 10000 0 0.
Proof.
  pose proof (processOrders_frame long_trade_bar1
                (placeOrder Long 10 (Simulator_new 10000 0 0)))
    as (_ & _ & _ & _ & _ & _ & _ & H1 & _).
  pose proof (processOrders_frame long_trade_bar1 (Simulator_new 10000 0 0))
    as (_ & _ & _ & _ & _ & _ & _ & _ & H2).
  split; [apply H1 | apply H2]; reflexivity.
Defined.

(** * The order of the calls in a run *)

Local Close Scope float_scope.

Section CallOrder.

Context {S : Type} {strat : IStrategy S}.

Variable load : string -> option (list Bar).
Variable loadFromDatabentoDir : string -> string -> option (list Bar).
Variable regroup : nat -> list Bar -> list Bar.

(** The log of the loop from bar [i] on: [n] bars gone through in full, fill
    first, then the strategy, then the mark to market, and possibly one last
    bar cut short after its fill. *)
Lemma loop_trace (bs : list Bar) (i : nat) (pk : float) (bt : Backtester S) :
  exists n tail,
    calls_ (after_loop (loop i bs pk bt))
    = calls_ bt
      ++ flat_map (fun k => [CallProcessOrders k; CallOnBar k; CallUpdateEquity k])
           (seq i n)
      ++ tail
    /\ ((tail = [] /\ n <= length bs
         /\ (took_break (loop i bs pk bt) = false -> n = length bs))
        \/ (tail = [CallProcessOrders (i + n); CallUpdateEquity (i + n)]
            /\ n < length bs /\ took_break (loop i bs pk bt) = true)).
Proof.
  revert i pk bt. induction bs as [| bar rest IH]; intros i pk bt.
  - exists 0, []. cbn. rewrite app_nil_r. split; [reflexivity |].
    left. repeat split. lia.
  - cbn [loop].
    destruct (loop_body_cases i bar pk bt)
      as [[_ Hbody] | [_ [Hbody | [Hbody | Hbody]]]]; rewrite Hbody.
    + exists 0, [CallProcessOrders (i + 0); CallUpdateEquity (i + 0)].
      cbn. rewrite Nat.add_0_r, <- app_assoc. split; [reflexivity |].
      right. repeat split. lia.
    + match goal with |- context [loop _ rest ?pk' _] =>
        destruct (IH (Datatypes.S i) pk' (bar_done i bar bt)) as (n & tail & Hc & Hcase)
      end.
      exists (Datatypes.S n), tail. split.
      * rewrite Hc. cbn [seq flat_map]. cbn [bar_done call_updateEquity invoke
          call_processOrders log_call set_sim set_strategy setBarIndex calls_].
        rewrite <- !app_assoc. reflexivity.
      * destruct Hcase as [(-> & Hn & Hk) | (-> & Hn & Hk)].
        -- left. repeat split; [cbn; lia |]. intro Hb. cbn. f_equal. apply Hk, Hb.
        -- right. replace (i + Datatypes.S n) with (Datatypes.S i + n) by lia.
           repeat split; [cbn; lia | exact Hk].
    + exists 1, []. cbn. rewrite <- !app_assoc. split; [reflexivity |].
      left. repeat split; [lia | discriminate].
    + exists 1, []. cbn. rewrite <- !app_assoc. split; [reflexivity |].
      left. repeat split; [lia | discriminate].
Qed.

(** On every run that has bars, the bars the loop and the strategy see are
    the aggregated ones, unchanged to the end, and the log reads: [onStart];
    then for bars 0, 1, ... in order the fill, the strategy's [onBar] and the
    mark to market; possibly one last bar with its fill and mark to market
    only, on which the run stopped; then [onEnd].  Without an early stop
    every bar is gone through in full. *)
Theorem run_call_order
    (strategy : S) (data_path : string) (initial_cash commission : float)
    (databento_dir symbol_filter bar_resolution : string) (slippage : float)
    (loaded : list Bar) :
  let bt := Backtester_new strategy data_path initial_cash commission
              databento_dir symbol_filter bar_resolution slippage in
  let final := snd (run load loadFromDatabentoDir regroup bt) in
  load_data load loadFromDatabentoDir bt = Some loaded ->
  is_empty loaded = false ->
  data_ final = aggregateBars regroup (bar_resolution_ bt) loaded
  /\ exists n tail,
       calls_ final
       = CallOnStart
         :: flat_map (fun k => [CallProcessOrders k; CallOnBar k; CallUpdateEquity k])
              (seq 0 n)
         ++ tail ++ [CallOnEnd]
       /\ ((tail = [] /\ n <= length (data_ final))
           \/ (tail = [CallProcessOrders n; CallUpdateEquity n]
               /\ n < length (data_ final)
               /\ stoppedEarly final = true))
       /\ (stoppedEarly final = false -> n = length (data_ final) /\ tail = []).
Proof.
  intros bt final Hl He. subst final.
  destruct loaded as [| b bs]; [discriminate He |].
  rewrite (run_load_ok load loadFromDatabentoDir regroup bt b bs Hl). cbn [snd].
  unfold run_loaded. cbv zeta.
  destruct (started_fresh regroup bt (b :: bs) eq_refl eq_refl)
    as (Hc0 & _ & Hs0 & _ & Hd0).
  set (bt0 := started regroup (set_data (b :: bs) bt)) in *.
  pose proof (loop_data (data_ bt0) 0 (bt_initial_cash_ bt0) bt0) as Hdata.
  destruct (loop_summary (data_ bt0) 0 (bt_initial_cash_ bt0) bt0)
    as (m & _ & _ & _ & _ & Hnb & Hb).
  destruct (loop_trace (data_ bt0) 0 (bt_initial_cash_ bt0) bt0)
    as (n & tail & Hc & Hcase).
  set (r := loop 0 (data_ bt0) (bt_initial_cash_ bt0) bt0) in *.
  destruct (invoke_effect onEnd CallOnEnd (after_loop r))
    as (Hd & Hcl & Hs & _).
  unfold stoppedEarly. rewrite Hd, Hcl, Hs, Hdata, Hc, Hc0.
  split; [exact Hd0 |].
  exists n, tail. split; [cbn [app]; rewrite <- !app_assoc; reflexivity |].
  cbn [Nat.add] in Hcase. split.
  - destruct Hcase as [(Ht & Hn & _) | (Ht & Hn & Hk)].
    + left. split; assumption.
    + right. repeat split; try assumption. apply (Hb Hk).
  - intro Hst. destruct Hcase as [(Ht & Hn & Hk) | (Ht & Hn & Hk)].
    + split; [| exact Ht]. apply Hk.
      destruct (took_break r) eqn:E; [| reflexivity].
      destruct (Hb eq_refl) as (Hs1 & _). rewrite Hs1 in Hst. discriminate.
    + destruct (Hb Hk) as (Hs1 & _). rewrite Hs1 in Hst. discriminate.
Qed.

End CallOrder.

Lemma run_call_order_witness :
  data_ (snd (run (load_const ruin_bars) (load_dir_const []) regroup_id
                (scripted_bt ruin_script)))
  = ruin_bars.
Proof.
  apply (run_call_order (load_const ruin_bars) (load_dir_const []) regroup_id
           ruin_script "data.csv" 10000%float 0%float EmptyString EmptyString "1m"
           0%float ruin_bars); reflexivity.
Defined.

(** * The string writers of the report *)

Section Writers.

Local Open Scope string_scope.

Lemma csv_escape_tail_inj (s1 s2 : string) :
  csv_escape s1 ++ String dquote EmptyString
  = csv_escape s2 ++ String dquote EmptyString ->
  s1 = s2.
Proof.
  revert s2. induction s1 as [| c1 r1 IH]; intros [| c2 r2]; cbn [csv_escape].
  - reflexivity.
  - destruct (Ascii.eqb_spec c2 dquote) as [-> | Hc2]; cbn [append]; intro H.
    + injection H as H. destruct (csv_escape r2); discriminate H.
    + injection H as H _. congruence.
  - destruct (Ascii.eqb_spec c1 dquote) as [-> | Hc1]; cbn [append]; intro H.
    + injection H as H. destruct (csv_escape r1); discriminate H.
    + injection H as H _. congruence.
  - destruct (Ascii.eqb_spec c1 dquote) as [-> | Hc1],
             (Ascii.eqb_spec c2 dquote) as [-> | Hc2]; cbn [append]; intro H.
    + injection H as H. f_equal. apply IH, H.
    + injection H as H _. congruence.
    + injection H as H _. congruence.
    + injection H as -> H. f_equal. apply IH, H.
Qed.

Lemma length_append_one (t : string) (c : ascii) :
  String.length (t ++ String c EmptyString) = Datatypes.S (String.length t).
Proof. induction t as [| d t IHt]; cbn; [reflexivity | rewrite IHt; reflexivity]. Qed.

Lemma get_append_one (t : string) (c : ascii) :
  String.get (String.length t) (t ++ String c EmptyString) = Some c.
Proof. induction t as [| d t IHt]; cbn; [reflexivity | exact IHt]. Qed.

(** [writeCsvQuoted] never writes the same text for two different strings,
    and what it writes starts and ends with a quote. *)
Theorem writeCsvQuoted_injective (s1 s2 : string) :
  (writeCsvQuoted s1 = writeCsvQuoted s2 -> s1 = s2)
  /\ String.get 0 (writeCsvQuoted s1) = Some dquote
  /\ String.get (String.length (writeCsvQuoted s1) - 1) (writeCsvQuoted s1)
     = Some dquote.
Proof.
  split; [| split].
  - unfold writeCsvQuoted. intro H. injection H as H.
    apply csv_escape_tail_inj, H.
  - reflexivity.
  - unfold writeCsvQuoted. cbn [String.length Nat.sub]. rewrite Nat.sub_0_r.
    rewrite length_append_one. cbn [String.get]. apply get_append_one.
Qed.

Lemma writeCsvQuoted_injective_witness : "a" = "a".
Proof.
  apply (writeCsvQuoted_injective "a" "a"). reflexivity.
Defined.

Lemma special_chars_distinct :
  dquote <> backslash /\ dquote <> newline /\ dquote <> carriage_return
  /\ backslash <> newline /\ backslash <> carriage_return
  /\ newline <> carriage_return
  /\ "n"%char <> dquote /\ "n"%char <> backslash /\ "r"%char <> dquote
  /\ "r"%char <> backslash /\ "n"%char <> "r"%char.
Proof. repeat split; discriminate. Qed.

(** The escape of one character, as [json_escape] writes it. *)
Lemma json_escape_cons (c : ascii) (rest : string) :
  (c = dquote
   /\ json_escape (String c rest) = String backslash (String dquote (json_escape rest)))
  \/ (c = backslash
      /\ json_escape (String c rest)
         = String backslash (String backslash (json_escape rest)))
  \/ (c = newline
      /\ json_escape (String c rest)
         = String backslash (String "n"%char (json_escape rest)))
  \/ (c = carriage_return
      /\ json_escape (String c rest)
         = String backslash (String "r"%char (json_escape rest)))
  \/ (c <> dquote /\ c <> backslash /\ c <> newline /\ c <> carriage_return
      /\ json_escape (String c rest) = String c (json_escape rest)).
Proof.
  cbn [json_escape].
  destruct (Ascii.eqb_spec c dquote) as [-> | H1]; [left; split; reflexivity |].
  destruct (Ascii.eqb_spec c backslash) as [-> | H2];
    [right; left; split; reflexivity |].
  destruct (Ascii.eqb_spec c newline) as [-> | H3];
    [right; right; left; split; reflexivity |].
  destruct (Ascii.eqb_spec c carriage_return) as [-> | H4];
    [right; right; right; left; split; reflexivity |].
  right; right; right; right. repeat split; assumption.
Qed.

Lemma json_escape_tail_inj (s1 s2 : string) :
  json_escape s1 ++ String dquote EmptyString
  = json_escape s2 ++ String dquote EmptyString ->
  s1 = s2.
Proof.
  pose proof special_chars_distinct
    as (D1 & D2 & D3 & D4 & D5 & D6 & D7 & D8 & D9 & D10 & D11).
  revert s2. induction s1 as [| c1 r1 IH]; intros [| c2 r2].
  - reflexivity.
  - destruct (json_escape_cons c2 r2)
      as [[-> ->] | [[-> ->] | [[-> ->] | [[-> ->] | (N1 & N2 & N3 & N4 & ->)]]]];
      cbn [json_escape append]; intro H; injection H as H; try congruence.
  - destruct (json_escape_cons c1 r1)
      as [[-> ->] | [[-> ->] | [[-> ->] | [[-> ->] | (N1 & N2 & N3 & N4 & ->)]]]];
      cbn [json_escape append]; intro H; injection H as H; try congruence.
  - destruct (json_escape_cons c1 r1)
      as [[-> ->] | [[-> ->] | [[-> ->] | [[-> ->] | (N1 & N2 & N3 & N4 & ->)]]]];
    destruct (json_escape_cons c2 r2)
      as [[-> ->] | [[-> ->] | [[-> ->] | [[-> ->] | (M1 & M2 & M3 & M4 & ->)]]]];
      cbn [append]; intro H; injection H as H;
      try congruence;
      try (injection H as H; try congruence; f_equal; apply IH, H);
      try (subst; f_equal; apply IH; assumption).
Qed.

(** [writeJsonString] never writes the same text for two different strings,
    and between its two quotes no line feed and no carriage return appears,
    whatever the string holds. *)
Theorem writeJsonString_injective (s1 s2 : string) :
  (writeJsonString s1 = writeJsonString s2 -> s1 = s2)
  /\ ~ In newline (list_ascii_of_string (json_escape s1))
  /\ ~ In carriage_return (list_ascii_of_string (json_escape s1)).
Proof.
  pose proof special_chars_distinct
    as (D1 & D2 & D3 & D4 & D5 & D6 & D7 & D8 & D9 & D10 & D11).
  split.
  - unfold writeJsonString. intro H. injection H as H.
    apply json_escape_tail_inj, H.
  - clear s2. induction s1 as [| c r [IH1 IH2]].
    { split; intro E; exact E. }
    destruct (json_escape_cons c r)
      as [[-> ->] | [[-> ->] | [[-> ->] | [[-> ->] | (N1 & N2 & N3 & N4 & ->)]]]];
      cbn [list_ascii_of_string In]; split; intro E;
      repeat match type of E with _ \/ _ => destruct E as [E | E] end;
      try (apply IH1; assumption); try (apply IH2; assumption);
      try discriminate E; try congruence.
Qed.

Lemma writeJsonString_injective_witness : "a" = "a".
Proof.
  apply (writeJsonString_injective "a" "a"). reflexivity.
Defined.

End Writers.

(** * The metrics of the report *)

Local Open Scope float_scope.

(** Above a value that is [>= 0] there are only values [>= 0]. *)
Lemma leb_zero_ltb (m d : float) :
  (0 <=? m) = true -> (m <? d) = true -> (0 <=? d) = true.
Proof.
  rewrite !FloatAxioms.leb_spec, FloatAxioms.ltb_spec.
  unfold SpecFloat.SFleb, SpecFloat.SFltb.
  change (FloatOps.Prim2SF 0) with (SpecFloat.S754_zero false).
  destruct (FloatOps.Prim2SF m) as [sm | sm | | sm mm em],
           (FloatOps.Prim2SF d) as [sd | sd | | sd md ed];
    cbn; try discriminate; try reflexivity;
    try (destruct sm; discriminate);
    try (destruct sm, sd; cbn; try discriminate; reflexivity).
Qed.

Lemma drawdown_step_nonneg (st : float * float) (eq : float) :
  (0 <=? snd st) = true -> (0 <=? snd (drawdown_step st eq)) = true.
Proof.
  intro H. unfold drawdown_step. cbv zeta. cbn [snd].
  match goal with |- context [if snd st <? ?dd then _ else _] =>
    destruct (snd st <? dd) eqn:E; [apply (leb_zero_ltb _ _ H E) | exact H]
  end.
Qed.

Lemma drawdown_fold_nonneg (curve : list float) (st : float * float) :
  (0 <=? snd st) = true ->
  (0 <=? snd (fold_left drawdown_step curve st)) = true.
Proof.
  revert st. induction curve as [| eq curve IH]; intros st H; [exact H |].
  cbn [fold_left]. apply IH, drawdown_step_nonneg, H.
Qed.

(** The maximum drawdown that [computeMetrics] reports is never negative
    and never a NaN, whatever the equity curve holds. *)
Theorem max_drawdown_nonneg (sim : Simulator) (initial_cash : float) :
  (0 <=? max_drawdown_pct (computeMetrics sim initial_cash)) = true.
Proof.
  unfold computeMetrics. cbv zeta.
  destruct (equityCurve sim) as [| c0 rest]; [reflexivity |].
  cbn [max_drawdown_pct]. apply drawdown_fold_nonneg. reflexivity.
Qed.

(** With fewer than three points on the equity curve the Sharpe ratio is
    reported as 0: one return has no spread. *)
Theorem sharpe_needs_three_points (sim : Simulator) (initial_cash : float) :
  (List.length (equityCurve sim) <= 2)%nat ->
  sharpe_ratio (computeMetrics sim initial_cash) = 0.
Proof.
  intro Hlen. unfold computeMetrics. cbv zeta.
  destruct (equityCurve sim) as [| c0 [| c1 [| c2 rest]]];
    [reflexivity | reflexivity | reflexivity | cbn in Hlen; lia].
Qed.

Lemma sharpe_needs_three_points_witness :
  sharpe_ratio (computeMetrics run_simulator_long_trade 10000) = 0.
Proof.
  apply (sharpe_needs_three_points run_simulator_long_trade 10000).
  cbn. lia.
Defined.

Lemma trade_step_wins (ts : list Trade) (w : Z) (p : float) :
  fst (fold_left trade_step ts (w, p))
  = (w + Z.of_nat (List.length (filter (fun t => (0 <? pnl t)%float) ts)))%Z.
Proof.
  revert w p. induction ts as [| t ts IH]; intros w p.
  - cbn. lia.
  - cbn [fold_left filter]. unfold trade_step at 2. cbn [fst snd].
    rewrite IH. destruct (0 <? pnl t); cbn [List.length]; lia.
Qed.

Lemma to_int_small (z : Z) : (0 <= z < 2 ^ 31)%Z -> to_int z = z.
Proof.
  intro H. unfold to_int.
  rewrite Z.mod_small; lia.
Qed.

(** When the equity curve is not empty and there are fewer than 2^31
    trades, [computeMetrics] reports the number of trades in the log, and as
    winning trades the number of those with [pnl > 0], which is between 0
    and the number of trades; with no trade the win rate and the average
    trade pnl are 0.  With an empty curve all of these are reported as 0,
    whatever the trade log holds. *)
Theorem trade_statistics (sim : Simulator) (initial_cash : float) :
  let m := computeMetrics sim initial_cash in
  (equityCurve sim <> [] ->
   (Z.of_nat (List.length (trades sim)) < 2 ^ 31)%Z ->
   num_trades m = Z.of_nat (List.length (trades sim))
   /\ winning_trades m
      = Z.of_nat (List.length (filter (fun t => 0 <? pnl t) (trades sim)))
   /\ (0 <= winning_trades m <= num_trades m)%Z
   /\ (trades sim = [] -> win_rate_pct m = 0 /\ avg_trade_pnl m = 0))
  /\ (equityCurve sim = [] ->
      num_trades m = 0%Z /\ winning_trades m = 0%Z
      /\ win_rate_pct m = 0 /\ avg_trade_pnl m = 0).
Proof.
  cbv zeta. unfold computeMetrics. cbv zeta.
  destruct (equityCurve sim) as [| c0 rest].
  - split; [intro H; exfalso; apply H; reflexivity |].
    intros _. repeat split.
  - split; [| discriminate].
    intros _ Hn. cbn [num_trades winning_trades win_rate_pct avg_trade_pnl].
    rewrite to_int_small by lia. rewrite trade_step_wins.
    pose proof (filter_length_le (fun t => 0 <? pnl t) (trades sim)) as Hle.
    split; [reflexivity |]. split; [lia |]. split; [lia |].
    intro He. rewrite He. split; reflexivity.
Qed.

Lemma trade_statistics_witness :
  num_trades (computeMetrics run_simulator_long_trade 10000) = 1%Z.
Proof.
  apply (proj1 (trade_statistics run_simulator_long_trade 10000));
    [discriminate | reflexivity].
Defined.

(** For a flat ledger [computeMetrics] reports no open position and no
    unrealized profit, whatever the stored average entry price is. *)
Theorem flat_has_no_unrealized_pnl (sim : Simulator) (initial_cash : float) :
  position sim = 0 ->
  open_position (computeMetrics sim initial_cash) = 0
  /\ unrealized_pnl (computeMetrics sim initial_cash) = 0.
Proof.
  intro Hp. unfold computeMetrics. cbv zeta.
  destruct (equityCurve sim) as [| c0 rest]; [split; reflexivity |].
  cbn [open_position unrealized_pnl]. rewrite Hp. split; reflexivity.
Qed.

Lemma flat_has_no_unrealized_pnl_witness :
  open_position (computeMetrics run_simulator_long_trade 10000) = 0
  /\ unrealized_pnl (computeMetrics run_simulator_long_trade 10000) = 0.
Proof.
  apply (flat_has_no_unrealized_pnl run_simulator_long_trade 10000).
  reflexivity.
Defined.

(** * The text helpers of the data source *)

Local Close Scope float_scope.

Section TextHelpers.

Local Open Scope string_scope.

Lemma find_first_not_of_none (s : string) :
  find_first_not_of s = None <-> all_trim_chars s = true.
Proof.
  induction s as [| c r IH]; cbn; [tauto |].
  destruct (is_trim_char c); cbn [andb].
  - destruct (find_first_not_of r); cbn; rewrite <- IH; split; congruence.
  - split; discriminate.
Qed.

Lemma find_last_not_of_none (s : string) :
  find_last_not_of s = None <-> all_trim_chars s = true.
Proof.
  induction s as [| c r IH]; cbn; [tauto |].
  destruct (find_last_not_of r).
  - split; [discriminate |]. intro H. apply andb_true_iff in H.
    destruct H as [_ H]. apply IH in H. discriminate.
  - destruct (is_trim_char c); cbn [andb].
    + rewrite <- IH. tauto.
    + split; discriminate.
Qed.

Lemma substring_0_0 (s : string) : substring 0 0 s = "".
Proof. destruct s; reflexivity. Qed.

Lemma substring_all (s : string) : substring 0 (String.length s) s = s.
Proof. induction s as [| c r IH]; cbn; [reflexivity | rewrite IH; reflexivity]. Qed.

(** A stripped character in front does not change the result. *)
Lemma trim_skip (c : ascii) (r : string) :
  is_trim_char c = true -> trim (String c r) = trim r.
Proof.
  intro Hc. unfold trim. cbn [find_first_not_of find_last_not_of]. rewrite Hc.
  destruct (find_first_not_of r) as [a |] eqn:Ea; cbn [option_map]; [| reflexivity].
  destruct (find_last_not_of r) as [e |] eqn:Ee; [| reflexivity].
  cbn [substring Nat.sub]. reflexivity.
Qed.

(** With a character in front that is kept, the result runs from it to the
    last character that is kept. *)
Lemma trim_keep (c : ascii) (r : string) :
  is_trim_char c = false ->
  trim (String c r)
  = match find_last_not_of r with
    | Some j => String c (substring 0 (Datatypes.S j) r)
    | None => String c ""
    end.
Proof.
  intro Hc. unfold trim. cbn [find_first_not_of find_last_not_of]. rewrite Hc.
  destruct (find_last_not_of r) as [j |].
  - cbn [Nat.sub]. rewrite Nat.add_1_r. cbn [substring]. reflexivity.
  - cbn. rewrite substring_0_0. reflexivity.
Qed.

(** Up to the last kept character, and what is behind it. *)
Lemma find_last_not_of_split (r : string) (j : nat) :
  find_last_not_of r = Some j ->
  exists post c,
    r = substring 0 (Datatypes.S j) r ++ post
    /\ all_trim_chars post = true
    /\ String.length (substring 0 (Datatypes.S j) r) = Datatypes.S j
    /\ String.get j (substring 0 (Datatypes.S j) r) = Some c
    /\ is_trim_char c = false.
Proof.
  revert j. induction r as [| d r IH]; intros j H; [discriminate |].
  cbn [find_last_not_of] in H.
  destruct (find_last_not_of r) as [j' |] eqn:E.
  - injection H as <-. destruct (IH j' eq_refl) as (post & c & H1 & H2 & H3 & H4 & H5).
    exists post, c. cbn [substring append String.length String.get].
    repeat split; try assumption; [f_equal; exact H1 | f_equal; exact H3].
  - destruct (is_trim_char d) eqn:Hd; [discriminate |]. injection H as <-.
    exists r, d. cbn [substring]. rewrite substring_0_0. cbn.
    repeat split; try assumption. apply find_last_not_of_none, E.
Qed.

Lemma find_last_not_of_last (t : string) (c : ascii) :
  String.get (String.length t - 1) t = Some c -> is_trim_char c = false ->
  find_last_not_of t = Some (String.length t - 1).
Proof.
  induction t as [| d t IH]; [discriminate |].
  cbn [String.length Nat.sub]. rewrite Nat.sub_0_r. intros Hg Hc.
  cbn [find_last_not_of]. destruct t as [| e t].
  - cbn in Hg. injection Hg as ->. cbn. rewrite Hc. reflexivity.
  - cbn [String.length String.get] in Hg.
    cbn [String.length Nat.sub] in IH. rewrite Nat.sub_0_r in IH.
    rewrite (IH Hg Hc). reflexivity.
Qed.

(** The facts about [trim], proved together along the line. *)
Lemma trim_facts (s : string) :
  (exists pre post,
      s = pre ++ trim s ++ post
      /\ all_trim_chars pre = true /\ all_trim_chars post = true)
  /\ (trim s = ""
      \/ exists c d,
           String.get 0 (trim s) = Some c /\ is_trim_char c = false
           /\ String.get (String.length (trim s) - 1) (trim s) = Some d
           /\ is_trim_char d = false)
  /\ (trim s = "" <-> all_trim_chars s = true)
  /\ trim (trim s) = trim s.
Proof.
  induction s as [| c r (IH1 & IH2 & IH3 & IH4)].
  - split; [exists "", ""; repeat split |]. split; [left; reflexivity |].
    split; [cbn; tauto | reflexivity].
  - destruct (is_trim_char c) eqn:Hc.
    + rewrite (trim_skip c r Hc). cbn [all_trim_chars]. rewrite Hc. cbn [andb].
      split; [| repeat split; try assumption; apply IH3].
      destruct IH1 as (pre & post & H1 & H2 & H3).
      exists (String c pre), post. cbn [append all_trim_chars]. rewrite Hc, H2.
      repeat split; [f_equal; exact H1 | exact H3].
    + rewrite (trim_keep c r Hc). cbn [all_trim_chars]. rewrite Hc. cbn [andb].
      destruct (find_last_not_of r) as [j |] eqn:Ej.
      * destruct (find_last_not_of_split r j Ej) as (post & d & H1 & H2 & H3 & H4 & H5).
        set (body := substring 0 (Datatypes.S j) r) in *.
        split; [exists "", post; cbn [append all_trim_chars];
                repeat split; [f_equal; exact H1 | exact H2] |].
        assert (Hlast : String.get (String.length (String c body) - 1) (String c body)
                        = Some d).
        { cbn [String.length Nat.sub]. rewrite Nat.sub_0_r, H3. cbn [String.get].
          exact H4. }
        split; [right; exists c, d; repeat split; assumption |].
        split; [split; discriminate |].
        unfold trim at 1. cbn [find_first_not_of]. rewrite Hc.
        rewrite (find_last_not_of_last _ d Hlast H5).
        rewrite Nat.sub_0_r.
        replace (String.length (String c body) - 1 + 1)
          with (String.length (String c body)) by (cbn [String.length]; lia).
        apply substring_all.
      * split; [exists "", r; cbn [append all_trim_chars];
                repeat split; apply find_last_not_of_none, Ej |].
        split; [right; exists c, c; repeat split; assumption |].
        split; [split; discriminate |].
        unfold trim. cbn. rewrite Hc. reflexivity.
Qed.

(** [trim] cuts a run of stripped characters off each end and nothing else:
    the line is the result between two such runs, and the result, unless
    empty, starts and ends with a character that is kept.  It is empty
    exactly when the line holds stripped characters only, and trimming
    twice is trimming once. *)
Theorem trim_spec (s : string) :
  (exists pre post,
      s = pre ++ trim s ++ post
      /\ all_trim_chars pre = true /\ all_trim_chars post = true)
  /\ (trim s = ""
      \/ exists c d,
           String.get 0 (trim s) = Some c /\ is_trim_char c = false
           /\ String.get (String.length (trim s) - 1) (trim s) = Some d
           /\ is_trim_char d = false)
  /\ (trim s = "" <-> all_trim_chars s = true)
  /\ trim (trim s) = trim s.
Proof.
  destruct (trim_facts s) as (Hdec & Hends & Hempty & Hidem).
  split; [exact Hdec |]. split; [exact Hends |].
  split; [exact Hempty | exact Hidem].
Qed.

Lemma count_char_app (c : ascii) (a b : string) :
  count_char c (a ++ b) = count_char c a + count_char c b.
Proof.
  induction a as [| d a IH]; cbn [append count_char]; [reflexivity |].
  rewrite IH. lia.
Qed.

Lemma getline_parts_length (s : string) (delim : ascii) (cur : string) :
  List.length (getline_parts s delim cur)
  = count_char delim s + (if ends_with delim s then 0 else 1).
Proof.
  revert cur. induction s as [| c r IH]; intro cur; [reflexivity |].
  cbn [getline_parts count_char ends_with].
  destruct (Ascii.eqb c delim) eqn:E.
  - destruct r as [| c' r']; [reflexivity |].
    cbn [List.length]. rewrite IH. lia.
  - rewrite IH. destruct r as [| c' r']; reflexivity.
Qed.

Lemma getline_parts_no_delim (s : string) (delim : ascii) (cur : string) :
  count_char delim cur = 0 ->
  Forall (fun p => count_char delim p = 0) (getline_parts s delim cur).
Proof.
  revert cur. induction s as [| c r IH]; intros cur Hcur.
  - constructor; [exact Hcur | constructor].
  - cbn [getline_parts]. destruct (Ascii.eqb c delim) eqn:E.
    + constructor; [exact Hcur |].
      destruct r as [| c' r']; [constructor | apply IH; reflexivity].
    + apply IH. rewrite count_char_app, Hcur. cbn. rewrite E. reflexivity.
Qed.

(** [split] reads one part per delimiter and one more for what follows the
    last delimiter, unless nothing follows it: an empty line gives no part
    and a delimiter at the end of the line opens no empty last part.  Every
    part is trimmed and holds no delimiter. *)
Theorem split_spec (line : string) (delim : ascii) :
  List.length (split line delim)
  = match line with
    | "" => 0
    | String _ _ =>
        count_char delim line + (if ends_with delim line then 0 else 1)
    end
  /\ Forall (fun p => trim p = p /\ count_char delim p = 0) (split line delim).
Proof.
  unfold split. rewrite length_map. split.
  - destruct line as [| c r]; [reflexivity | apply getline_parts_length].
  - apply Forall_map.
    assert (H : Forall (fun p => count_char delim p = 0)
                  match line with
                  | "" => []
                  | String _ _ => getline_parts line delim ""
                  end).
    { destruct line; [constructor | apply getline_parts_no_delim; reflexivity]. }
    revert H. apply Forall_impl. intros p Hp.
    destruct (trim_facts p) as ((pre & post & Hdec & _) & _ & _ & Hidem).
    split; [exact Hidem |].
    rewrite Hdec, !count_char_app in Hp. lia.
Qed.

Lemma find_header_spec (headers : list string) (name : string) (i0 : nat) :
  match find_header headers name i0 with
  | Some i =>
      exists k h,
        i = i0 + k /\ nth_error headers k = Some h /\ toLower h = name
        /\ forall j h', j < k -> nth_error headers j = Some h' -> toLower h' <> name
  | None => forall h, In h headers -> toLower h <> name
  end.
Proof.
  revert i0. induction headers as [| h0 rest IH]; intro i0; cbn [find_header].
  - intros h [].
  - destruct (String.eqb (toLower h0) name) eqn:E.
    + apply String.eqb_eq in E. exists 0, h0. rewrite Nat.add_0_r.
      repeat split; try assumption. intros j h' Hj. lia.
    + apply String.eqb_neq in E. specialize (IH (Datatypes.S i0)).
      destruct (find_header rest name (Datatypes.S i0)) as [i |].
      * destruct IH as (k & h & -> & Hn & Hl & Hfirst).
        exists (Datatypes.S k), h. repeat split; try assumption; [lia |].
        intros [| j] h' Hj Hnth; cbn in Hnth.
        -- injection Hnth as <-. exact E.
        -- apply (Hfirst j h'); [lia | exact Hnth].
      * intros h [<- | Hin]; [exact E | apply IH, Hin].
Qed.

(** [findColumn] on fewer than 2^31 headers returns -1 exactly when no
    header, lowered, equals any of the names.  Otherwise it returns the
    index of a header that, lowered, equals one of the names: the first
    such header for the first name that has one. *)
Theorem findColumn_spec (headers names : list string) :
  (Z.of_nat (List.length headers) < 2 ^ 31)%Z ->
  (findColumn headers names = (-1)%Z
   <-> forall h name, In h headers -> In name names -> toLower h <> name)
  /\ (findColumn headers names <> (-1)%Z ->
      exists i h name before after,
        findColumn headers names = Z.of_nat i
        /\ nth_error headers i = Some h
        /\ names = (before ++ name :: after)%list
        /\ toLower h = name
        /\ (forall j h', j < i -> nth_error headers j = Some h' -> toLower h' <> name)
        /\ (forall h' name', In h' headers -> In name' before -> toLower h' <> name')).
Proof.
  intro Hlen. induction names as [| name rest [IH1 IH2]]; cbn [findColumn].
  - split; [split; [intros _ h name _ [] | reflexivity] |].
    intro H. exfalso. apply H. reflexivity.
  - pose proof (find_header_spec headers name 0) as Hf.
    destruct (find_header headers name 0) as [i |].
    + destruct Hf as (k & h & -> & Hnth & Hl & Hfirst). cbn [Nat.add] in *.
      assert (Hk : k < List.length headers).
      { apply nth_error_Some. rewrite Hnth. discriminate. }
      rewrite to_int_small by lia.
      split.
      * split; [lia |]. intro Hno. exfalso.
        apply (Hno h name); [eapply nth_error_In, Hnth | left; reflexivity | exact Hl].
      * intros _. exists k, h, name, [], rest.
        repeat split; try assumption. intros h' name' _ [].
    + split.
      * rewrite IH1. split.
        -- intros Hno h name' Hin [<- | Hin']; [apply Hf, Hin | apply Hno; assumption].
        -- intros Hno h name' Hin Hin'. apply Hno; [exact Hin | right; exact Hin'].
      * intro Hne. destruct (IH2 Hne)
          as (i & h & name' & before & after & H1 & H2 & H3 & H4 & H5 & H6).
        exists i, h, name', (name :: before), after.
        repeat split; try assumption; [rewrite H3; reflexivity |].
        intros h' n' Hin [<- | Hin']; [apply Hf, Hin | apply (H6 h' n'); assumption].
Qed.

Lemma findColumn_spec_witness :
  findColumn ["timestamp"; "Open"; "high"; "low"; "CLOSE"] ["close"; "c"] <> (-1)%Z.
Proof.
  intro H.
  apply (proj1 (proj1 (findColumn_spec ["timestamp"; "Open"; "high"; "low"; "CLOSE"]
                         ["close"; "c"] ltac:(cbn; lia))) H "CLOSE" "close");
    cbn; auto 10.
Defined.

End TextHelpers.

(** * Timestamps and period keys *)

Section Timestamps.

Local Open Scope string_scope.

Lemma count_char_substring (c : ascii) (n m : nat) (s : string) :
  count_char c (substring n m s) <= count_char c s.
Proof.
  revert n m. induction s as [| d s IH]; intros n m; [destruct n, m; cbn; lia |].
  destruct n as [| n]; [destruct m as [| m] |]; cbn [substring count_char].
  - lia.
  - specialize (IH 0 m). lia.
  - specialize (IH n m). lia.
Qed.

Lemma count_char_underscores (s : string) :
  count_char ":" (underscores_to_colons s) = count_char ":" s + count_char "_" s.
Proof.
  induction s as [| d s IH]; [reflexivity |].
  cbn [underscores_to_colons count_char]. rewrite IH.
  destruct (Ascii.eqb_spec d "_") as [-> | Hd]; [cbn; lia |].
  destruct (Ascii.eqb d ":"); lia.
Qed.

(** Behind the only occurrence of a character there is no further one. *)
Lemma find_char_from_none (c : ascii) (s : string) (i : nat) :
  count_char c s <= 1 -> find_char c s = Some i ->
  find_char_from c (i + 1) s = None.
Proof.
  unfold find_char. revert i. induction s as [| d s IH]; intros i Hc Hf; [discriminate |].
  cbn [find_char_from count_char] in *.
  destruct (Ascii.eqb d c) eqn:E.
  - injection Hf as <-. cbn [Nat.add find_char_from].
    assert (H0 : count_char c s = 0) by lia. clear - H0.
    assert (G : forall k, find_char_from c k s = None).
    { induction s as [| e s IHs]; intro k; [reflexivity |].
      cbn [count_char] in H0. cbn [find_char_from].
      destruct (Ascii.eqb e c); [discriminate |].
      destruct k; rewrite IHs by lia; reflexivity. }
    rewrite G. reflexivity.
  - destruct (find_char_from c 0 s) as [j |] eqn:Ej; [| discriminate].
    injection Hf as <-. cbn [Nat.add find_char_from].
    rewrite (IH j) by (lia || reflexivity). reflexivity.
Qed.

Lemma parse_time_one_colon (timePart : string) :
  count_char ":" timePart <= 1 -> snd (parse_time timePart) = 0%Z.
Proof.
  intro Hc. unfold parse_time.
  destruct timePart as [| c r]; [reflexivity |].
  destruct (find_char ":" (String c r)) as [colon1 |] eqn:E1; [| reflexivity].
  destruct (stoi (substring 0 colon1 (String c r))); [| reflexivity].
  rewrite (find_char_from_none ":" (String c r) colon1 Hc E1). reflexivity.
Qed.

(** The minute of a timestamp is read only when a second colon follows it,
    as in [HH:MM:SS]: for a timestamp with at most one colon or underscore
    in all, such as [YYYY-MM-DDTHH:MM], [parseTimestamp] leaves the minute
    at 0, and the 15-minute period key of the bar is its hour key. *)
Theorem minute_needs_second_colon (ts : string) (y mo d h mi : Z) :
  count_char ":" ts + count_char "_" ts <= 1 ->
  parseTimestamp ts = Some (y, mo, d, h, mi) ->
  mi = 0%Z /\ periodKey y mo d h mi 15 = periodKey y mo d h mi 60.
Proof.
  intros Hc Hp. unfold parseTimestamp in Hp. cbv zeta in Hp.
  destruct (parse_date (fst (date_and_time (underscores_to_colons ts))))
    as [[[y' mo'] d'] |]; [| discriminate].
  injection Hp as -> -> -> <- <-.
  assert (Hmi : snd (parse_time (snd (date_and_time (underscores_to_colons ts)))) = 0%Z).
  { apply parse_time_one_colon.
    rewrite <- count_char_underscores in Hc.
    unfold date_and_time, substr_from.
    destruct (find_char "T" (underscores_to_colons ts)) as [tPos |]; cbn [snd].
    - eapply Nat.le_trans; [apply count_char_substring | exact Hc].
    - destruct (find_char " " (underscores_to_colons ts)) as [spPos |]; cbn [snd].
      + eapply Nat.le_trans; [apply count_char_substring | exact Hc].
      + cbn. lia. }
  rewrite Hmi. split; reflexivity.
Qed.

Lemma minute_needs_second_colon_witness :
  periodKey 2024 1 1 9 0 15 = periodKey 2024 1 1 9 0 60.
Proof.
  apply (minute_needs_second_colon "2024-01-01T09:30" 2024 1 1 9 0);
    [cbn; lia | reflexivity].
Defined.

End Timestamps.

(** * The grouping of [aggregateBars] *)

Section Regroup.

Local Open Scope string_scope.

Lemma string_ltb_trans (a b c : string) :
  String.ltb a b = true -> String.ltb b c = true -> String.ltb a c = true.
Proof.
  unfold String.ltb. intros Hab Hbc.
  destruct (String.compare a b) eqn:Eab; try discriminate.
  destruct (String.compare b c) eqn:Ebc; try discriminate.
  apply OrderedTypeEx.String_as_OT.cmp_lt in Eab, Ebc.
  pose proof (OrderedTypeEx.String_as_OT.lt_trans _ _ _ Eab Ebc) as Hac.
  apply OrderedTypeEx.String_as_OT.cmp_lt in Hac.
  unfold OrderedTypeEx.String_as_OT.cmp in Hac. rewrite Hac. reflexivity.
Qed.

(** Of two different keys one is below the other. *)
Lemma string_ltb_total (a b : string) :
  String.eqb a b = false -> String.ltb a b = false -> String.ltb b a = true.
Proof.
  unfold String.ltb. intros Hne Hlt.
  rewrite (String.compare_antisym b a).
  destruct (String.compare a b) eqn:E; cbn in *; try discriminate; try reflexivity.
  apply String.compare_eq_iff in E. subst. rewrite String.eqb_refl in Hne.
  discriminate.
Qed.

Lemma map_upsert_keys (key : string) (b : Bar) (m : list (string * Bar)) :
  forall kv, In kv (map_upsert key b m) ->
             fst kv = key \/ exists kv', In kv' m /\ fst kv' = fst kv.
Proof.
  induction m as [| [k agg] rest IH]; intros kv Hin; cbn [map_upsert] in Hin.
  - destruct Hin as [<- | []]. left. reflexivity.
  - destruct (String.eqb key k) eqn:E.
    + destruct Hin as [<- | Hin].
      * right. exists (k, agg). split; [left; reflexivity | reflexivity].
      * right. exists kv. split; [right; exact Hin | reflexivity].
    + destruct (String.ltb key k).
      * destruct Hin as [<- | Hin]; [left; reflexivity |].
        right. exists kv. split; [exact Hin | reflexivity].
      * destruct Hin as [<- | Hin].
        -- right. exists (k, agg). split; [left; reflexivity | reflexivity].
        -- destruct (IH kv Hin) as [H | (kv' & H1 & H2)]; [left; exact H |].
           right. exists kv'. split; [right; exact H1 | exact H2].
Qed.

Lemma map_upsert_ok (key : string) (b : Bar) (m : list (string * Bar)) :
  map_ok m -> map_ok (map_upsert key b m).
Proof.
  induction 1 as [| k agg rest Hts Hlt Hok IH]; cbn [map_upsert].
  - constructor; [reflexivity | constructor | constructor].
  - destruct (String.eqb key k) eqn:E.
    + constructor; [exact Hts | exact Hlt | exact Hok].
    + destruct (String.ltb key k) eqn:L.
      * constructor; [reflexivity | | constructor; assumption].
        constructor; [exact L |].
        revert Hlt. apply Forall_impl. intros kv H.
        apply (string_ltb_trans _ _ _ L H).
      * constructor; [exact Hts | | exact IH].
        apply Forall_forall. intros kv Hin.
        destruct (map_upsert_keys key b rest kv Hin) as [-> | (kv' & H1 & <-)].
        -- apply string_ltb_total; assumption.
        -- rewrite Forall_forall in Hlt. apply Hlt, H1.
Qed.

Lemma map_upsert_has_key (key : string) (b : Bar) (m : list (string * Bar)) :
  exists agg, In (key, agg) (map_upsert key b m).
Proof.
  induction m as [| [k agg] rest IH]; cbn [map_upsert].
  - eexists. left. reflexivity.
  - destruct (String.eqb key k) eqn:E.
    + apply String.eqb_eq in E. subst. eexists. left. reflexivity.
    + destruct (String.ltb key k).
      * eexists. left. reflexivity.
      * destruct IH as (agg' & Hin). exists agg'. right. exact Hin.
Qed.

Lemma map_upsert_keeps (key : string) (b : Bar) (m : list (string * Bar)) :
  forall kv, In kv m -> exists agg, In (fst kv, agg) (map_upsert key b m).
Proof.
  induction m as [| [k agg] rest IH]; intros kv Hin; [destruct Hin |].
  cbn [map_upsert]. destruct (String.eqb key k) eqn:E.
  - destruct Hin as [<- | Hin]; [eexists; left; reflexivity |].
    exists (snd kv). right. destruct kv. exact Hin.
  - destruct (String.ltb key k).
    + exists (snd kv). right. destruct kv. exact Hin.
    + destruct Hin as [<- | Hin]; [eexists; left; reflexivity |].
      destruct (IH kv Hin) as (agg' & H). exists agg'. right. exact H.
Qed.

Lemma map_upsert_length (key : string) (b : Bar) (m : list (string * Bar)) :
  List.length (map_upsert key b m) <= Datatypes.S (List.length m).
Proof.
  induction m as [| [k agg] rest IH]; cbn [map_upsert]; [cbn; lia |].
  destruct (String.eqb key k); [cbn; lia |].
  destruct (String.ltb key k); cbn [List.length] in *; lia.
Qed.

(** The loop over the bars keeps the map in order, adds at most one entry
    per bar, and its keys are those it had and those of the bars that
    parse. *)
Lemma aggregate_fold (iv : Z) (bs : list Bar) (m : list (string * Bar)) :
  map_ok m ->
  let m' := fold_left (aggregate_step iv) bs m in
  map_ok m'
  /\ List.length m' <= List.length m + List.length bs
  /\ (forall kv, In kv m' ->
        (exists kv0, In kv0 m /\ fst kv0 = fst kv)
        \/ exists b, In b bs /\ bar_key iv b = Some (fst kv))
  /\ (forall kv, In kv m -> exists agg, In (fst kv, agg) m')
  /\ (forall b k, In b bs -> bar_key iv b = Some k -> exists agg, In (k, agg) m').
Proof.
  revert m. induction bs as [| b bs IH]; intros m Hok; cbn [fold_left].
  - cbn zeta. split; [exact Hok |]. split; [cbn; lia |].
    split; [intros kv Hin; left; exists kv; auto |].
    split; [intros [k a] Hin; exists a; exact Hin | intros b k []].
  - assert (Hok1 : map_ok (aggregate_step iv m b)).
    { unfold aggregate_step. destruct (bar_key iv b); [apply map_upsert_ok |]; exact Hok. }
    destruct (IH _ Hok1) as (H1 & H2 & H3 & H4 & H5). cbn zeta.
    split; [exact H1 |].
    split.
    { eapply Nat.le_trans; [exact H2 |]. cbn [List.length].
      unfold aggregate_step. destruct (bar_key iv b); [| lia].
      pose proof (map_upsert_length s b m). lia. }
    split.
    { intros kv Hin. destruct (H3 kv Hin) as [(kv0 & Hin0 & Hk) | (b' & Hb' & Hk)].
      - unfold aggregate_step in Hin0. destruct (bar_key iv b) as [key |] eqn:Ek.
        + destruct (map_upsert_keys key b m kv0 Hin0) as [Hkey | (kv1 & Hin1 & Hk1)].
          * right. exists b. split; [left; reflexivity |]. congruence.
          * left. exists kv1. split; [exact Hin1 | congruence].
        + left. exists kv0. auto.
      - right. exists b'. split; [right; exact Hb' | exact Hk]. }
    split.
    { intros kv Hin.
      assert (Hstep : exists agg, In (fst kv, agg) (aggregate_step iv m b)).
      { unfold aggregate_step. destruct (bar_key iv b) as [key |].
        - apply map_upsert_keeps, Hin.
        - exists (snd kv). destruct kv. exact Hin. }
      destruct Hstep as (agg & Hagg). apply (H4 (fst kv, agg) Hagg). }
    intros b' k [<- | Hin] Hk.
    + assert (Hstep : exists agg, In (k, agg) (aggregate_step iv m b)).
      { unfold aggregate_step. rewrite Hk. apply map_upsert_has_key. }
      destruct Hstep as (agg & Hagg). apply (H4 (k, agg) Hagg).
    + apply (H5 b' k Hin Hk).
Qed.

Lemma insert_by_timestamp_front (b : Bar) (l : list Bar) :
  Forall (fun x => String.ltb (timestamp b) (timestamp x) = true) l ->
  insert_by_timestamp b l = b :: l.
Proof.
  destruct l as [| x l]; [reflexivity |]. intro H. cbn [insert_by_timestamp].
  apply Forall_inv in H. rewrite H. reflexivity.
Qed.

(** On the values of an ordered map the final sort changes nothing. *)
Lemma sort_of_map (m : list (string * Bar)) :
  map_ok m -> sort_by_timestamp (map snd m) = map snd m.
Proof.
  induction 1 as [| k agg rest Hts Hlt Hok IH]; [reflexivity |].
  cbn [map snd sort_by_timestamp fold_right].
  fold (sort_by_timestamp (map snd rest)). rewrite IH.
  apply insert_by_timestamp_front. apply Forall_map.
  clear IH. induction Hok as [| k' agg' rest' Hts' Hlt' Hok' IH'];
    [constructor |].
  apply Forall_cons_iff in Hlt. destruct Hlt as [Hhd Htl].
  constructor; [cbn [snd fst] in *; rewrite Hts, Hts'; exact Hhd |].
  apply IH'. exact Htl.
Qed.

Lemma map_ok_sorted (m : list (string * Bar)) :
  map_ok m ->
  Sorted.StronglySorted
    (fun a b => String.ltb (timestamp a) (timestamp b) = true) (map snd m).
Proof.
  induction 1 as [| k agg rest Hts Hlt Hok IH]; cbn [map]; constructor.
  - exact IH.
  - apply Forall_map. cbn [snd]. rewrite Hts. clear IH.
    induction Hok as [| k' agg' rest' Hts' Hlt' Hok' IH']; [constructor |].
    apply Forall_cons_iff in Hlt. destruct Hlt as [Hhd Htl].
    constructor; [cbn [snd fst] in *; rewrite Hts'; exact Hhd | apply IH', Htl].
Qed.

Lemma map_ok_timestamp (m : list (string * Bar)) :
  map_ok m -> forall kv, In kv m -> timestamp (snd kv) = fst kv.
Proof.
  induction 1 as [| k agg rest Hts Hlt Hok IH]; intros kv Hin; [destruct Hin |].
  destruct Hin as [<- | Hin]; [exact Hts | apply IH, Hin].
Qed.

(** The facts about the bars left for an interval, proved together from the
    invariant of the loop. *)
Lemma regroup_periods_facts (interval : nat) (bs : list Bar) :
  let out := regroup_periods interval bs in
  let key := bar_key (Z.of_nat interval) in
  Sorted.StronglySorted
    (fun a b => String.ltb (timestamp a) (timestamp b) = true) out
  /\ List.length out <= List.length bs
  /\ (forall o, In o out -> exists b, In b bs /\ key b = Some (timestamp o))
  /\ (forall b k, In b bs -> key b = Some k ->
                  exists o, In o out /\ timestamp o = k)
  /\ ((forall b, In b bs -> key b = None) -> out = []).
Proof.
  cbv zeta. unfold regroup_periods. cbv zeta.
  destruct (aggregate_fold (Z.of_nat interval) bs [] map_ok_nil)
    as (Hok & Hlen & Hfrom & _ & Hto).
  set (m := fold_left (aggregate_step (Z.of_nat interval)) bs []) in *.
  rewrite (sort_of_map m Hok).
  assert (Hout : forall o, In o (map snd m) ->
                 exists b, In b bs /\ bar_key (Z.of_nat interval) b = Some (timestamp o)).
  { intros o Hin. apply in_map_iff in Hin. destruct Hin as (kv & <- & Hin).
    rewrite (map_ok_timestamp m Hok kv Hin).
    destruct (Hfrom kv Hin) as [(kv0 & [] & _) | H]. exact H. }
  split; [apply map_ok_sorted, Hok |].
  split; [rewrite length_map; cbn in Hlen; exact Hlen |].
  split; [exact Hout |].
  split.
  - intros b k Hin Hk. destruct (Hto b k Hin Hk) as (agg & Hagg).
    exists agg. split; [apply in_map_iff; exists (k, agg); auto |].
    apply (map_ok_timestamp m Hok (k, agg) Hagg).
  - intro Hnone. destruct (map snd m) as [| o rest]; [reflexivity |].
    destruct (Hout o (or_introl eq_refl)) as (b & Hb & Hk).
    rewrite (Hnone b Hb) in Hk. discriminate.
Qed.

(** The bars [aggregateBars] leaves for an interval come in strictly
    increasing order of timestamp, no two with the same; there are at most
    as many as bars went in; their timestamps are exactly the period keys of
    the input bars whose timestamp parses, so that bars with a timestamp that
    does not parse are dropped, and nothing is left when none parses. *)
Theorem regroup_periods_keys (interval : nat) (bs : list Bar) :
  let out := regroup_periods interval bs in
  let key := bar_key (Z.of_nat interval) in
  Sorted.StronglySorted
    (fun a b => String.ltb (timestamp a) (timestamp b) = true) out
  /\ List.length out <= List.length bs
  /\ (forall o, In o out -> exists b, In b bs /\ key b = Some (timestamp o))
  /\ (forall b k, In b bs -> key b = Some k ->
                  exists o, In o out /\ timestamp o = k)
  /\ ((forall b, In b bs -> key b = None) -> out = []).
Proof.
  destruct (regroup_periods_facts interval bs) as (Hs & Hlen & Hfrom & Hto & Hnone).
  cbv zeta. split; [exact Hs |]. split; [exact Hlen |].
  split; [exact Hfrom |]. split; [exact Hto | exact Hnone].
Qed.

Lemma regroup_periods_keys_witness :
  exists o, In o (regroup_periods 15 aggregate_test_bars)
            /\ timestamp o = "2024-01-01T09:00".
Proof.
  pose proof (regroup_periods_keys 15 aggregate_test_bars) as (_ & _ & _ & H & _).
  apply (H (mkBar "2024-01-01T09:30" 100 101 99 100.5 100)%float "2024-01-01T09:00");
    [left; reflexivity | reflexivity].
Defined.

(** Where an entry of the map comes from after one more bar: the bar merged
    into the aggregate of its period, the bar alone when its period is new,
    or an entry of another period left as it was. *)
Lemma map_upsert_entry (key : string) (b : Bar) (m : list (string * Bar)) :
  map_ok m ->
  forall k a', In (k, a') (map_upsert key b m) ->
    (k = key /\ exists a, In (key, a) m /\ a' = merge_bar a b)
    \/ (k = key /\ (forall a, ~ In (key, a) m) /\ a' = first_in_period key b)
    \/ (k <> key /\ In (k, a') m).
Proof.
  induction 1 as [| k0 agg rest Hts Hlt Hok IH]; intros k a' Hin; cbn [map_upsert] in Hin.
  - destruct Hin as [E | []]. injection E as <- <-.
    right; left. repeat split. intros a [].
  - assert (Hrest : forall x a, In (x, a) rest -> String.ltb k0 x = true).
    { intros x a Hx. rewrite Forall_forall in Hlt. apply (Hlt (x, a) Hx). }
    assert (Hirr : forall x, String.ltb x x = false).
    { intro x. unfold String.ltb.
      destruct (String.compare x x) eqn:E; try reflexivity.
      pose proof (String.compare_antisym x x) as Ha. rewrite E in Ha. discriminate. }
    destruct (String.eqb key k0) eqn:E.
    + apply String.eqb_eq in E. subst key.
      destruct Hin as [E' | Hin].
      * injection E' as <- <-. left. split; [reflexivity |].
        exists agg. split; [left; reflexivity | reflexivity].
      * right; right. split; [| right; exact Hin].
        intros ->. pose proof (Hrest _ _ Hin) as Hl. rewrite Hirr in Hl. discriminate.
    + assert (Hne : key <> k0) by (apply String.eqb_neq; exact E).
      destruct (String.ltb key k0) eqn:L.
      * destruct Hin as [E' | Hin].
        -- injection E' as <- <-. right; left. repeat split.
           intros a [Ea | Ha].
           ++ injection Ea as Ea _. congruence.
           ++ pose proof (Hrest _ _ Ha) as Hl.
              pose proof (string_ltb_trans _ _ _ L Hl) as Hkk.
              rewrite Hirr in Hkk. discriminate.
        -- right; right. split; [| exact Hin].
           intros ->. destruct Hin as [Ea | Ha].
           ++ injection Ea as Ea _. congruence.
           ++ pose proof (Hrest _ _ Ha) as Hl.
              pose proof (string_ltb_trans _ _ _ L Hl) as Hkk.
              rewrite Hirr in Hkk. discriminate.
      * destruct Hin as [E' | Hin].
        -- injection E' as <- <-. right; right.
           split; [congruence | left; reflexivity].
        -- destruct (IH k a' Hin) as [(-> & a & Ha & ->) | [(-> & Hno & ->) | (Hk & Ha)]].
           ++ left. split; [reflexivity |]. exists a. split; [right; exact Ha | reflexivity].
           ++ right; left. repeat split.
              intros a [Ea | Ha]; [injection Ea as Ea _; congruence | apply (Hno a Ha)].
           ++ right; right. split; [exact Hk | right; exact Ha].
Qed.

(** The aggregate of a period opens where the first bar of the period
    opens and closes where the last one closes. *)
Lemma aggregate_first_last (iv : Z) (bs : list Bar) :
  let m := fold_left (aggregate_step iv) bs [] in
  forall k agg, In (k, agg) m ->
    exists l1 first l2 l3 last l4,
      bs = (l1 ++ first :: l2)%list /\ bs = (l3 ++ last :: l4)%list
      /\ bar_key iv first = Some k /\ bar_key iv last = Some k
      /\ (forall b, In b l1 -> bar_key iv b <> Some k)
      /\ (forall b, In b l4 -> bar_key iv b <> Some k)
      /\ open agg = open first /\ close agg = close last.
Proof.
  induction bs as [| b bs IH] using rev_ind; cbv zeta; [intros k agg [] |].
  rewrite fold_left_app. cbn [fold_left].
  destruct (aggregate_fold iv bs [] map_ok_nil) as (Hok & _ & _ & _ & Hto).
  cbv zeta in IH. set (m := fold_left (aggregate_step iv) bs []) in *.
  intros k agg Hin. unfold aggregate_step in Hin.
  destruct (bar_key iv b) as [key |] eqn:Ekey.
  - destruct (map_upsert_entry key b m Hok k agg Hin)
      as [(-> & a & Ha & ->) | [(-> & Hno & ->) | (Hk & Ha)]].
    + destruct (IH key a Ha)
        as (l1 & first & l2 & _ & _ & _ & H1 & _ & Hf & _ & Hl1 & _ & Ho & _).
      exists l1, first, (l2 ++ [b])%list, bs, b, [].
      repeat split; try assumption.
      * rewrite H1, <- app_assoc. reflexivity.
      * intros x [].
    + exists bs, b, [], bs, b, [].
      repeat split; try assumption.
      * intros x Hx Hkx. destruct (Hto x key Hx Hkx) as (a & Ha). apply (Hno a Ha).
      * intros x [].
    + destruct (IH k agg Ha)
        as (l1 & first & l2 & l3 & last & l4 & H1 & H2 & Hf & Hl & Hl1 & Hl4 & Ho & Hc).
      exists l1, first, (l2 ++ [b])%list, l3, last, (l4 ++ [b])%list.
      repeat split; try assumption.
      * rewrite H1 at 1. rewrite <- app_assoc. reflexivity.
      * rewrite H2 at 1. rewrite <- app_assoc. reflexivity.
      * intros x Hx. apply in_app_or in Hx. destruct Hx as [Hx | [<- | []]].
        -- apply Hl4, Hx.
        -- rewrite Ekey. congruence.
  - destruct (IH k agg Hin)
      as (l1 & first & l2 & l3 & last & l4 & H1 & H2 & Hf & Hl & Hl1 & Hl4 & Ho & Hc).
    exists l1, first, (l2 ++ [b])%list, l3, last, (l4 ++ [b])%list.
    repeat split; try assumption.
    + rewrite H1 at 1. rewrite <- app_assoc. reflexivity.
    + rewrite H2 at 1. rewrite <- app_assoc. reflexivity.
    + intros x Hx. apply in_app_or in Hx. destruct Hx as [Hx | [<- | []]].
      * apply Hl4, Hx.
      * rewrite Ekey. discriminate.
Qed.

(** Every bar [aggregateBars] leaves for an interval has the open of the
    first input bar of its period and the close of the last one. *)
Theorem regroup_periods_open_close (interval : nat) (bs : list Bar) (o : Bar) :
  In o (regroup_periods interval bs) ->
  exists l1 first l2 l3 last l4,
    bs = (l1 ++ first :: l2)%list /\ bs = (l3 ++ last :: l4)%list
    /\ bar_key (Z.of_nat interval) first = Some (timestamp o)
    /\ bar_key (Z.of_nat interval) last = Some (timestamp o)
    /\ (forall b, In b l1 -> bar_key (Z.of_nat interval) b <> Some (timestamp o))
    /\ (forall b, In b l4 -> bar_key (Z.of_nat interval) b <> Some (timestamp o))
    /\ open o = open first /\ close o = close last.
Proof.
  unfold regroup_periods. cbv zeta.
  destruct (aggregate_fold (Z.of_nat interval) bs [] map_ok_nil) as (Hok & _).
  cbv zeta in Hok. rewrite (sort_of_map _ Hok).
  intro Hin. apply in_map_iff in Hin. destruct Hin as ([k agg] & <- & Hin).
  pose proof (map_ok_timestamp _ Hok (k, agg) Hin) as Hts.
  cbn [fst snd] in *. rewrite Hts.
  apply (aggregate_first_last (Z.of_nat interval) bs k agg Hin).
Qed.

Lemma regroup_periods_open_close_witness :
  exists l1 first l2 l3 last l4,
    aggregate_test_bars = (l1 ++ first :: l2)%list
    /\ aggregate_test_bars = (l3 ++ last :: l4)%list
    /\ bar_key 15 first = Some "2024-01-01T09:00"
    /\ bar_key 15 last = Some "2024-01-01T09:00"
    /\ (forall b, In b l1 -> bar_key 15 b <> Some "2024-01-01T09:00")
    /\ (forall b, In b l4 -> bar_key 15 b <> Some "2024-01-01T09:00")
    /\ 100%float = open first /\ 101.5%float = close last.
Proof.
  apply (regroup_periods_open_close 15 aggregate_test_bars
           (mkBar "2024-01-01T09:00" 100 103 99 101.5 500)%float).
  left. reflexivity.
Defined.

End Regroup.

(** * A run on bars that fall in no period *)

Section NoPeriod.

Context {S : Type} {strat : IStrategy S}.

Variable load : string -> option (list Bar).
Variable loadFromDatabentoDir : string -> string -> option (list Bar).

Local Open Scope string_scope.

(** The resolutions for which [aggregateBars] regroups, and the interval it
    uses for each. *)
Lemma aggregateBars_regroups (resolution : string) (bs : list Bar) :
  toLower resolution = "15m" \/ toLower resolution = "1h"
  \/ toLower resolution = "1hr" ->
  exists interval,
    aggregateBars regroup_periods resolution bs = regroup_periods interval bs.
Proof.
  unfold aggregateBars. cbv zeta.
  intros [-> | [-> | ->]]; [exists 15 | exists 60 | exists 60]; reflexivity.
Qed.

(** When the bars are loaded but the timestamp of none of them parses and
    the resolution asks for 15-minute or hourly bars, [run] still returns
    [true]: the aggregation leaves no bar, the loop body never runs, the
    only calls are [onStart] and [onEnd], the equity curve stays empty and
    the run is not marked as stopped early. *)
Theorem run_with_no_parseable_bar
    (strategy : S) (data_path : string) (initial_cash commission : float)
    (databento_dir symbol_filter bar_resolution : string) (slippage : float)
    (loaded : list Bar) :
  let bt := Backtester_new strategy data_path initial_cash commission
              databento_dir symbol_filter bar_resolution slippage in
  let res := run load loadFromDatabentoDir regroup_periods bt in
  toLower bar_resolution = "15m" \/ toLower bar_resolution = "1h"
  \/ toLower bar_resolution = "1hr" ->
  load_data load loadFromDatabentoDir bt = Some loaded ->
  is_empty loaded = false ->
  (forall b, In b loaded -> parseTimestamp (timestamp b) = None) ->
  fst res = true
  /\ data_ (snd res) = []
  /\ calls_ (snd res) = [CallOnStart; CallOnEnd]
  /\ equityCurve (simulator (snd res)) = []
  /\ stoppedEarly (snd res) = false.
Proof.
  intros bt res Hres Hl He Hnone. subst res.
  destruct loaded as [| b bs]; [discriminate He |].
  rewrite (run_load_ok load loadFromDatabentoDir regroup_periods bt b bs Hl).
  cbn [fst snd]. unfold run_loaded. cbv zeta.
  destruct (started_fresh regroup_periods bt (b :: bs) eq_refl eq_refl)
    as (Hc0 & Hq0 & Hs0 & _ & Hd0).
  set (bt0 := started regroup_periods (set_data (b :: bs) bt)) in *.
  assert (Hres' : toLower (bar_resolution_ bt) = "15m"
                  \/ toLower (bar_resolution_ bt) = "1h"
                  \/ toLower (bar_resolution_ bt) = "1hr").
  { unfold bt. cbn [bar_resolution_ Backtester_new].
    destruct bar_resolution as [| c r]; [| exact Hres].
    cbn in Hres. destruct Hres as [H | [H | H]]; discriminate H. }
  destruct (aggregateBars_regroups (bar_resolution_ bt) (b :: bs) Hres')
    as (interval & Hagg).
  assert (Hempty : data_ bt0 = []).
  { rewrite Hd0, Hagg.
    destruct (regroup_periods_facts interval (b :: bs)) as (_ & _ & _ & _ & Hn).
    apply Hn. intros x Hx. unfold bar_key. rewrite (Hnone x Hx). reflexivity. }
  rewrite Hempty. cbn [loop after_loop].
  destruct (invoke_effect onEnd CallOnEnd bt0)
    as (Hd & Hcl & Hs & _ & _ & Hcv & _).
  unfold equityCurve, simulator, stoppedEarly.
  rewrite Hd, Hcl, Hs, Hcv, Hempty, Hc0, Hq0, Hs0.
  repeat split.
Qed.

End NoPeriod.

Lemma run_with_no_parseable_bar_witness :
  fst (run (load_const [flat_bar "not a date" 1%float]) (load_dir_const [])
         regroup_periods
         (Backtester_new quiet_script "data.csv" 10000%float 0%float
            EmptyString EmptyString "15M" 0%float))
  = true.
Proof.
  apply (run_with_no_parseable_bar (load_const [flat_bar "not a date" 1%float])
           (load_dir_const []) quiet_script "data.csv" 10000%float 0%float
           EmptyString EmptyString "15M" 0%float [flat_bar "not a date" 1%float]).
  - left. reflexivity.
  - reflexivity.
  - reflexivity.
  - intros b [<- | []]. reflexivity.
Defined.

(** * The ledger under any sequence of calls *)

Section LedgerCalls.

Local Open Scope float_scope.

Lemma ledger_call_step (s : Simulator) (c : LedgerCall) :
  initial_cash_ (ledger_call s c) = initial_cash_ s
  /\ commission_ (ledger_call s c) = commission_ s
  /\ (exists more, trades_ (ledger_call s c) = trades_ s ++ more)
  /\ equity_curve_ (ledger_call s c)
     = equity_curve_ s
       ++ (if is_DoUpdateEquity c then [equity_ (ledger_call s c)] else [])
  /\ ((has_pending_ s = true ->
       (quantity (pending_order_ s) <=? 0) = false
       /\ type (pending_order_ s) = Market) ->
      has_pending_ (ledger_call s c) = true ->
      (quantity (pending_order_ (ledger_call s c)) <=? 0) = false
      /\ type (pending_order_ (ledger_call s c)) = Market).
Proof.
  destruct c as [sd q | bar | bar]; cbn [ledger_call is_DoUpdateEquity].
  - unfold placeOrder. destruct (q <=? 0) eqn:E.
    + repeat split; try (rewrite app_nil_r; reflexivity);
        [exists []; rewrite app_nil_r; reflexivity | apply H; assumption | apply H; assumption].
    + cbn. repeat split; try (rewrite app_nil_r; reflexivity); try assumption.
      exists []. rewrite app_nil_r. reflexivity.
  - destruct (processOrders_config bar s) as (H1 & H2 & _).
    rewrite H1, H2, processOrders_equity_curve, processOrders_has_pending, app_nil_r.
    repeat split; try discriminate.
    destruct (processOrders_trades_shape bar s) as [-> | (t & -> & _)].
    + exists []. rewrite app_nil_r. reflexivity.
    + exists [t]. reflexivity.
  - cbn. repeat split; try (apply H; assumption).
    exists []. rewrite app_nil_r. reflexivity.
Qed.

(** Whatever calls are made on a new ledger, in whatever order: the initial
    cash and the commission stay as constructed; the trade log only grows,
    so that what was logged after part of the calls is the start of the log
    after all of them; the equity curve has one point per [updateEquity]
    call; and an order found pending has a quantity that is not [<= 0] and is
    a market order. *)
Theorem ledger_under_any_calls (initial_cash commission slippage : float)
    (before after : list LedgerCall) :
  let s0 := Simulator_new initial_cash commission slippage in
  let mid := ledger_calls before s0 in
  let s := ledger_calls (before ++ after) s0 in
  initial_cash_ s = initial_cash
  /\ commission_ s = commission
  /\ (exists more, trades s = trades mid ++ more)
  /\ List.length (equityCurve s)
     = List.length (filter is_DoUpdateEquity (before ++ after))
  /\ (has_pending_ s = true ->
      (quantity (pending_order_ s) <=? 0) = false
      /\ type (pending_order_ s) = Market).
Proof.
  cbv zeta. unfold ledger_calls. rewrite fold_left_app.
  assert (G : forall cs s1,
    let s2 := fold_left ledger_call cs s1 in
    initial_cash_ s2 = initial_cash_ s1
    /\ commission_ s2 = commission_ s1
    /\ (exists more, trades_ s2 = trades_ s1 ++ more)
    /\ List.length (equity_curve_ s2)
       = (List.length (equity_curve_ s1)
          + List.length (filter is_DoUpdateEquity cs))%nat
    /\ ((has_pending_ s1 = true ->
         (quantity (pending_order_ s1) <=? 0) = false
         /\ type (pending_order_ s1) = Market) ->
        has_pending_ s2 = true ->
        (quantity (pending_order_ s2) <=? 0) = false
        /\ type (pending_order_ s2) = Market)).
  { induction cs as [| c cs IH]; intro s1; cbn [fold_left].
    - cbv zeta. repeat split; try (cbn; lia); try (apply H; assumption).
      exists []. rewrite app_nil_r. reflexivity.
    - destruct (ledger_call_step s1 c) as (A1 & A2 & (m1 & A3) & A4 & A5).
      destruct (IH (ledger_call s1 c)) as (B1 & B2 & (m2 & B3) & B4 & B5).
      cbv zeta. split; [congruence |]. split; [congruence |].
      split; [exists (m1 ++ m2); rewrite B3, A3, app_assoc; reflexivity |].
      split.
      + rewrite B4, A4, length_app. cbn [filter].
        destruct (is_DoUpdateEquity c); cbn [List.length]; lia.
      + intros Hp. apply B5, A5, Hp. }
  destruct (G before (Simulator_new initial_cash commission slippage))
    as (C1 & C2 & _ & C4 & C5).
  destruct (G after (fold_left ledger_call before
                       (Simulator_new initial_cash commission slippage)))
    as (D1 & D2 & D3 & D4 & D5).
  unfold trades, equityCurve.
  split; [rewrite D1, C1; reflexivity |].
  split; [rewrite D2, C2; reflexivity |].
  split; [exact D3 |].
  split; [rewrite D4, C4, filter_app, length_app; reflexivity |].
  apply D5, C5. discriminate.
Qed.

Lemma ledger_under_any_calls_witness :
  (quantity (pending_order_
               (ledger_calls ([DoPlaceOrder Long 10] ++ [DoUpdateEquity long_trade_bar1])
                  (Simulator_new 10000 0 0))) <=? 0) = false.
Proof.
  apply (ledger_under_any_calls 10000 0 0 [DoPlaceOrder Long 10]
           [DoUpdateEquity long_trade_bar1]).
  reflexivity.
Defined.

End LedgerCalls.

(** * The moving average reads no bar from [end_index] on *)

Section MovingAverage.

Local Open Scope float_scope.



End MovingAverage.
